(** * ipm.e2e: query, match, action and expectation engine

    A shallow embedding of [src/ipm/e2e.py].  Python values that the
    library handles are modelled by small inductive types, exceptions by
    an error monad, and the calls that reach the accessibility service or
    the operating system (performing an action, killing a process) by a
    trace of events threaded through a state monad. *)

From Stdlib Require Import List String Ascii ZArith Bool Arith Lia.
From Stdlib Require Import Init.Byte.
From Stdlib Require Import Sorting.Permutation.
Import ListNotations.

Local Open Scope list_scope.

(* ================================================================== *)
(** ** Python exceptions and results *)

(** The exception classes that the library raises or meets.  Classes
    whose instances the library builds itself carry their message. *)
Inductive PyExc : Type :=
| StopIteration
| TypeError
| NameError
| IndexError
| AttributeError (msg : string)
| AssertionError (msg : string)
| RuntimeError (msg : string)
| NotFoundError (msg : string).

(** Outcome of evaluating a Python expression: a value, or a raised
    exception. *)
Inductive Result (A : Type) : Type :=
| Ok (a : A)
| Raise (e : PyExc).

Arguments Ok {A} a.
Arguments Raise {A} e.

Definition bindR {A B} (r : Result A) (k : A -> Result B) : Result B :=
  match r with
  | Ok a => k a
  | Raise e => Raise e
  end.

Declare Scope result_scope.
Delimit Scope result_scope with result.
Notation "x <- r ;; k" := (bindR r (fun x => k))
  (at level 61, r at next level, right associativity) : result_scope.

(** Python's [a and b] on boolean outcomes: [b] is evaluated only when
    [a] returned true. *)
Definition py_and (a b : Result bool) : Result bool :=
  match a with
  | Ok true => b
  | _ => a
  end.

(** [all(f(x) for x in xs)]: stops at the first false or raised item. *)
Fixpoint py_all {A} (f : A -> Result bool) (xs : list A) : Result bool :=
  match xs with
  | [] => Ok true
  | x :: xs' =>
      match f x with
      | Ok true => py_all f xs'
      | Ok false => Ok false
      | Raise e => Raise e
      end
  end.

(** [any(f(x) for x in xs)]: stops at the first true or raised item. *)
Fixpoint py_any {A} (f : A -> Result bool) (xs : list A) : Result bool :=
  match xs with
  | [] => Ok false
  | x :: xs' =>
      match f x with
      | Ok true => Ok true
      | Ok false => py_any f xs'
      | Raise e => Raise e
      end
  end.

(** [[x for x in xs if f(x)]]: every item is tested, a raise aborts. *)
Fixpoint py_filter {A} (f : A -> Result bool) (xs : list A) : Result (list A) :=
  match xs with
  | [] => Ok []
  | x :: xs' =>
      match f x with
      | Ok b =>
          match py_filter f xs' with
          | Ok ys => Ok (if b then x :: ys else ys)
          | Raise e => Raise e
          end
      | Raise e => Raise e
      end
  end.

(* ================================================================== *)
(** ** Python values seen through the accessibility objects *)

Fixpoint bytes_eqb (a b : list byte) : bool :=
  match a, b with
  | [], [] => true
  | x :: a', y :: b' => Byte.eqb x y && bytes_eqb a' b'
  | _, _ => false
  end.

(** What an attribute of an at-spi object can hold.  [PExcV] is an
    exception instance used as an ordinary value (the [Either] idiom of
    the library); [PMethod r] is a callable attribute, [r] being the
    outcome of calling it with no argument. *)
#[warnings="-register-all"]
Inductive PyVal : Type :=
| PStr (s : string)
| PBytes (b : list byte)
| PInt (z : Z)
| PNone
| PExcV (e : PyExc)
| PMethod (call0 : Result PyVal).

(** [is_error(x)]: [isinstance(x, Exception)]. *)
Definition is_error (x : PyVal) : bool :=
  match x with
  | PExcV _ => true
  | _ => false
  end.

(** [fail_on_error(x)]. *)
Definition fail_on_error (x : PyVal) : Result PyVal :=
  match x with
  | PExcV e => Raise e
  | _ => Ok x
  end.

(** [v()] for an attribute value [v]. *)
Definition py_call0 (v : PyVal) : Result PyVal :=
  match v with
  | PMethod r => r
  | _ => Raise TypeError
  end.

(* ================================================================== *)
(** ** Accessible objects (the adapter) *)

(** An at-spi object, as far as the library observes it.  [py_attrs] is
    the name space that [hasattr]/[getattr] see; [actions] lists
    [get_action_name(i)] for [i < get_n_actions()]; [children] lists
    [get_child_at_index(i)] for [i < get_child_count()]. *)
#[warnings="-register-all"]
Inductive Node : Type :=
  mkNode {
      get_role_name : string;
      get_name : option string;
      get_text : Result PyVal;
      py_attrs : list (string * PyVal);
      actions : list string;
      children : list Node
    }.

(** [getattr(obj, name)] when [hasattr(obj, name)], else [None]. *)
Fixpoint py_getattr_in (attrs : list (string * PyVal)) (name : string) : option PyVal :=
  match attrs with
  | [] => None
  | (k, v) :: attrs' => if String.eqb k name then Some v else py_getattr_in attrs' name
  end.

Definition py_getattr (obj : Node) (name : string) : option PyVal :=
  py_getattr_in (py_attrs obj) name.

(** [obj.get_name() or ""]. *)
Definition name_or_empty (obj : Node) : string :=
  match get_name obj with
  | Some s => s
  | None => EmptyString
  end.

(** [_pprint(obj)]: [f"{role}('{name}')"]. *)
Definition _pprint (obj : Node) : string :=
  (get_role_name obj ++ "('" ++ name_or_empty obj ++ "')")%string.

(** [_get_action_idx(obj, name)]: first index whose action name equals
    [name]. *)
Fixpoint index_of (name : string) (names : list string) (i : nat) : option nat :=
  match names with
  | [] => None
  | a :: names' => if String.eqb a name then Some i else index_of name names' (S i)
  end.

Definition _get_action_idx (obj : Node) (name : string) : option nat :=
  index_of name (actions obj) 0.

Definition _get_actions_names (obj : Node) : list string := actions obj.

(** [obj_get_attr(obj, name)]. *)
Definition obj_get_attr (obj : Node) (name : string) : Result PyVal :=
  if String.eqb name "role" then Ok (PStr (get_role_name obj))
  else if String.eqb name "name" then Ok (PStr (name_or_empty obj))
  else if String.eqb name "text" then get_text obj
  else
    match py_getattr obj name with
    | Some v => Ok v
    | None =>
        match py_getattr obj ("get_" ++ name)%string with
        | Some m => py_call0 m
        | None =>
            Ok (PExcV (AttributeError
                         (_pprint obj ++ " has no attribute " ++ name)%string))
        end
    end.

(** [obj_children(obj)]. *)
Definition obj_children (obj : Node) : list Node := children obj.

(* ================================================================== *)
(** ** Tree paths and the tree walk *)

Module NthOf.
Record t : Type := mk { i : Z; n : Z }.

(** [is_last(self)]: [self.i == self.n - 1]. *)
Definition is_last (self : t) : bool := Z.eqb (i self) (n self - 1).
End NthOf.

Definition TreePath : Type := list NthOf.t.

Definition ROOT_TREE_PATH : TreePath := [NthOf.mk 0 1].

(** The loop [for i, child in enumerate(children): yield from
    walk(child, path + (NthOf(i, n_children),))], started at index
    [i]. *)
Definition walk_children (walk : Node -> TreePath -> list (TreePath * Node))
  (path : TreePath) (n_children : nat) : nat -> list Node -> list (TreePath * Node) :=
  fix each (i : nat) (cs : list Node) {struct cs} : list (TreePath * Node) :=
    match cs with
    | [] => []
    | child :: cs' =>
        walk child (path ++ [NthOf.mk (Z.of_nat i) (Z.of_nat n_children)])
          ++ each (S i) cs'
    end.

(** [tree_walk(root, path)]: the items the generator yields, in order. *)
Fixpoint tree_walk (root : Node) (path : TreePath) {struct root}
  : list (TreePath * Node) :=
  (path, root)
    :: walk_children tree_walk path (List.length (obj_children root)) 0 (obj_children root).

(* ================================================================== *)
(** ** The matcher *)

(** The values a condition can carry ([MatchPattern]).  A compiled
    regular expression (over [str]) is represented by its [fullmatch]
    test; a callable by what it does when called with one argument (an
    attribute value) and with two (a node and its path), a call of the
    wrong arity being a call that raises. *)
Inductive MatchPattern : Type :=
| MStr (s : string)
| MBytes (b : list byte)
| MRegex (fullmatch : string -> bool)
| MInt (z : Z)
| MCallable (call1 : PyVal -> Result bool)
            (call2 : Node -> TreePath -> Result bool).

(** [MatchArgs]: a Python [dict], that is, the pairs in insertion order,
    no two of them with the same name. *)
Definition MatchArgs : Type := list (string * MatchPattern).

(** [attr == value] for a [str] literal [value]. *)
Definition py_eq_str (attr : PyVal) (value : string) : bool :=
  match attr with
  | PStr s => String.eqb s value
  | _ => false
  end.

(** [attr == value] for a byte-string literal [value]. *)
Definition py_eq_bytes (attr : PyVal) (value : list byte) : bool :=
  match attr with
  | PBytes b => bytes_eqb b value
  | _ => false
  end.

(** [path[-1]]; [None] stands for the [IndexError] of an empty tuple. *)
Fixpoint py_last (path : TreePath) : option NthOf.t :=
  match path with
  | [] => None
  | [x] => Some x
  | _ :: path' => py_last path'
  end.

(** [_match(obj, path, name, value)].  The two [TODO] placeholders are
    unbound names: evaluating them raises [NameError]. *)
Definition _match (obj : Node) (path : TreePath) (name : string)
  (value : MatchPattern) : Result bool :=
  if String.eqb name "path" then Raise NameError
  else if String.eqb name "nth" then
    match py_last path with
    | None => Raise IndexError
    | Some nth_of =>
        match value with
        | MInt value =>
            let idx := if Z.geb value 0 then value
                       else (NthOf.n nth_of + value)%Z in
            Ok (Z.eqb idx (NthOf.i nth_of))
        | _ => Raise TypeError
        end
    end
  else if String.eqb name "when" then
    match value with
    | MCallable _ call2 => call2 obj path
    | _ => Raise TypeError
    end
  else
    match value with
    | MStr s =>
        bindR (obj_get_attr obj name) (fun attr => Ok (py_eq_str attr s))
    | MBytes b =>
        bindR (obj_get_attr obj name) (fun attr => Ok (py_eq_bytes attr b))
    | MRegex fullmatch =>
        bindR (obj_get_attr obj name) (fun attr_value =>
          if is_error attr_value then Ok false
          else match attr_value with
               | PStr s => Ok (fullmatch s)
               | _ => Raise TypeError
               end)
    | MCallable call1 _ =>
        bindR (obj_get_attr obj name) call1
    | MInt _ => Raise NameError
    end.

(** [all(_match(obj, path, name, value) for name, value in
    kwargs.items())], the test applied to every walked node. *)
Definition matches (obj : Node) (path : TreePath) (kwargs : MatchArgs)
  : Result bool :=
  py_all (fun nv => _match obj path (fst nv) (snd nv)) kwargs.

(** The generator expression [(obj for path, obj in walked if
    all(...))], consumed to its end. *)
Definition select (walked : list (TreePath * Node)) (kwargs : MatchArgs)
  : Result (list Node) :=
  bindR (py_filter (fun po => matches (snd po) (fst po) kwargs) walked)
        (fun kept => Ok (map snd kept)).

(** [_find_all_descendants(root, kwargs)]: the items of the returned
    generator when it is consumed to its end. *)
Definition _find_all_descendants (root : Node) (kwargs : MatchArgs)
  : Result (list Node) :=
  if Nat.eqb (List.length kwargs) 0
  then Ok (map snd (tree_walk root ROOT_TREE_PATH))
  else select (tree_walk root ROOT_TREE_PATH) kwargs.

(** The first argument of [objects_in]: one object or several. *)
Inductive RootS : Type :=
| OneRoot (root : Node)
| ManyRoots (roots : list Node).

(** [for root in root_s: result.extend(produce(root))]. *)
Fixpoint extend_each (produce : Node -> Result (list Node))
  (root_s : list Node) (result : list Node) : Result (list Node) :=
  match root_s with
  | [] => Ok result
  | root :: root_s' =>
      bindR (produce root)
            (fun found => extend_each produce root_s' (result ++ found))
  end.

(** [objects_in(root_s, **kwargs)]. *)
Definition objects_in (root_s : RootS) (kwargs : MatchArgs)
  : Result (list Node) :=
  let root_s := match root_s with
                | OneRoot root => [root]
                | ManyRoots roots => roots
                end in
  if Nat.eqb (List.length kwargs) 0
  then extend_each (fun root => Ok (map snd (tree_walk root ROOT_TREE_PATH)))
         root_s []
  else extend_each (fun root => _find_all_descendants root kwargs) root_s [].

(* ================================================================== *)
(** ** Effects: the calls that leave the library *)

Definition Process : Type := nat.

(** [obj.do_action(idx)] and [process.kill()]. *)
Inductive Event : Type :=
| DoAction (obj : Node) (idx : nat)
| Kill (process : Process).

(** A computation that may raise and that appends to the trace of
    outside calls. *)
Definition M (A : Type) : Type := list Event -> Result A * list Event.

Definition ret {A} (a : A) : M A := fun tr => (Ok a, tr).

Definition raise {A} (e : PyExc) : M A := fun tr => (Raise e, tr).

Definition emit (ev : Event) : M unit := fun tr => (Ok tt, tr ++ [ev]).

Definition bind {A B} (m : M A) (k : A -> M B) : M B :=
  fun tr =>
    match m tr with
    | (Ok a, tr') => k a tr'
    | (Raise e, tr') => (Raise e, tr')
    end.

(* ================================================================== *)
(** ** Candidate sequences *)

(** An [Iterable[Atspi.Object]] as the library receives it: a list (what
    [objects_in] returns) or an iterator with its pending items (a
    generator, [iter(...)]).  What is left in an iterator after a call
    is not tracked. *)
Inductive Iterable : Type :=
| PyList (items : list Node)
| PyIterator (pending : list Node).

(** The items a [for] loop over the iterable goes through. *)
Definition items_of (objs : Iterable) : list Node :=
  match objs with
  | PyList items => items
  | PyIterator pending => pending
  end.

(** [iter(objs)]. *)
Definition py_iter (objs : Iterable) : Iterable := PyIterator (items_of objs).

(** [next(it)]: the item and the advanced iterator.  A list is not an
    iterator. *)
Definition py_next (it : Iterable) : Result (Node * Iterable) :=
  match it with
  | PyList _ => Raise TypeError
  | PyIterator [] => Raise StopIteration
  | PyIterator (obj :: pending) => Ok (obj, PyIterator pending)
  end.

(** [next(it, _MARK)]: [None] stands for the sentinel [_MARK]. *)
Definition py_next_default (it : Iterable) : Result (option Node * Iterable) :=
  match it with
  | PyList _ => Raise TypeError
  | PyIterator [] => Ok (None, it)
  | PyIterator (obj :: pending) => Ok (Some obj, PyIterator pending)
  end.

(* ================================================================== *)
(** ** The action dispatcher *)

Module Action.
Section Dispatch.

(** Python's [str(objs)], which the ambiguous-target message embeds; it
    is fixed by the interpreter, not by the library. *)
Variable py_str : Iterable -> string.

(** [self._do_action(obj)], [self.action_name] being [action_name]. *)
Definition _do_action (action_name : string) (obj : Node) : M unit :=
  match _get_action_idx obj action_name with
  | None =>
      raise (NotFoundError
               ("widget " ++ _pprint obj ++ " has no action named '"
                  ++ action_name ++ "', got: "
                  ++ String.concat "," (_get_actions_names obj))%string)
  | Some idx => emit (DoAction obj idx)
  end.

(** [for obj in objs: self._do_action(obj)]. *)
Fixpoint for_each (action_name : string) (objs : list Node) : M unit :=
  match objs with
  | [] => ret tt
  | obj :: objs' =>
      bind (_do_action action_name obj) (fun _ => for_each action_name objs')
  end.

(** [self.on_all(objs)]. *)
Definition on_all (action_name : string) (objs : Iterable) : M unit :=
  for_each action_name (items_of objs).

(** [self.on_first(objs)]. *)
Definition on_first (action_name : string) (objs : Iterable) : M unit :=
  match py_next objs with
  | Raise e => raise e
  | Ok (obj, _) => _do_action action_name obj
  end.

(** [self.on(objs)]. *)
Definition on (action_name : string) (objs : Iterable) : M unit :=
  let objs_iter := py_iter objs in
  match py_next objs_iter with
  | Raise e => raise e
  | Ok (obj, objs_iter) =>
      match py_next_default objs_iter with
      | Raise e => raise e
      | Ok (Some _, _) =>
          raise (AssertionError
                   ("when doing '" ++ action_name ++ "' on object"
                      ++ ", found more than one object: " ++ py_str objs)%string)
      | Ok (None, _) => _do_action action_name obj
      end
  end.

End Dispatch.
End Action.

(* ================================================================== *)
(** ** The expectation engine *)

Module Expectation.

Record t : Type := mk { objects : Iterable; which_one : string }.

(** [self._check(predicate)]. *)
Definition _check (self : t) (predicate : Node -> Result bool) : Result bool :=
  if String.eqb (which_one self) "all" then
    py_all predicate (items_of (objects self))
  else if String.eqb (which_one self) "any" then
    py_any predicate (items_of (objects self))
  else if String.eqb (which_one self) "first" then
    match py_next_default (objects self) with
    | Raise e => Raise e
    | Ok (None, _) => Ok false
    | Ok (Some obj, _) => predicate obj
    end
  else if String.eqb (which_one self) "one" then
    bindR (py_filter predicate (items_of (objects self)))
          (fun checks => Ok (Nat.eqb (List.length checks) 1))
  else
    Raise (RuntimeError ("unknown which_one= " ++ which_one self)%string).

End Expectation.

Definition expect (objects : Iterable) : Expectation.t :=
  Expectation.mk objects "all".

Definition expect_all (objects : Iterable) : Expectation.t :=
  Expectation.mk objects "all".

Definition expect_any (objects : Iterable) : Expectation.t :=
  Expectation.mk objects "any".

Definition expect_first (objects : Iterable) : Expectation.t :=
  Expectation.mk objects "first".

Definition expect_one (objects : Iterable) : Expectation.t :=
  Expectation.mk objects "one".

(** A predicate that returns a boolean and never raises. *)
Definition total (p : Node -> bool) : Node -> Result bool :=
  fun obj => Ok (p obj).

(* ================================================================== *)
(** ** The session as a context manager *)

Module SUT.

(** [process] is [None] for a falsy process handle; [app] is [None] when
    the application was not found before the timeout. *)
Record t : Type :=
  mk { process : option Process; app : option Node; path : string }.

(** [self.__enter__()]. *)
Definition __enter__ (self : t) : M t :=
  match app self with
  | None =>
      raise (RuntimeError ("the application " ++ path self
                             ++ " didn't show up in desktop")%string)
  | Some _ => ret self
  end.

(** [self.__exit__(exc_type, exc_value, traceback)]; it returns [None],
    so an exception of the body is never swallowed. *)
Definition __exit__ (self : t) : M unit :=
  match process self with
  | Some p => emit (Kill p)
  | None => ret tt
  end.

End SUT.

(** Python's [with mgr as value: body(value)] for a session [mgr]:
    [__exit__] runs after the body, whether it returned or raised, but
    only once [__enter__] has returned. *)
Definition py_with {A} (mgr : SUT.t) (body : SUT.t -> M A) : M A :=
  fun tr =>
    match SUT.__enter__ mgr tr with
    | (Raise e, tr1) => (Raise e, tr1)
    | (Ok value, tr1) =>
        match body value tr1 with
        | (outcome, tr2) =>
            match SUT.__exit__ mgr tr2 with
            | (Raise e, tr3) => (Raise e, tr3)
            | (Ok _, tr3) => (outcome, tr3)
            end
        end
    end.

(* ================================================================== *)
(** ** Union of condition sets *)

(** [d[name] = value]: an existing name keeps its place and takes the
    new value, a new name goes last. *)
Fixpoint dict_set (name : string) (value : MatchPattern) (d : MatchArgs)
  : MatchArgs :=
  match d with
  | [] => [(name, value)]
  | (k, v) :: d' =>
      if String.eqb k name then (k, value) :: d'
      else (k, v) :: dict_set name value d'
  end.

(** The union of two condition sets as a condition set.  The library
    has no such operation: a caller forms it with Python's dict merge
    [c1 | c2] (equally [{**c1, **c2}]), which is what this is.  For a
    name present in both, the place is that of [c1] and the value that
    of [c2]. *)
Definition dict_union (c1 c2 : MatchArgs) : MatchArgs :=
  fold_left (fun d nv => dict_set (fst nv) (snd nv) d) c2 c1.

(** [d.get(name)]. *)
Fixpoint dict_get (name : string) (d : MatchArgs) : option MatchPattern :=
  match d with
  | [] => None
  | (k, v) :: d' => if String.eqb k name then Some v else dict_get name d'
  end.

(** A list of pairs is a [dict] when no name occurs twice. *)
Definition is_dict (d : MatchArgs) : Prop := NoDup (map fst d).

(** Two condition sets agree when every name they share carries the
    same value in both. *)
Definition agree (c1 c2 : MatchArgs) : Prop :=
  forall name v1 v2,
    dict_get name c1 = Some v1 -> dict_get name c2 = Some v2 -> v1 = v2.

(* ================================================================== *)
(** ** A sample tree: the counter application of [examples/contador.py] *)

Module Contador.

Definition label1 : Node :=
  mkNode "label" (Some "Has pulsado 0 veces"%string)
    (Ok (PStr "Has pulsado 0 veces")) [] [] [].

Definition button : Node :=
  mkNode "push button" (Some "Contar"%string) (Ok (PStr "")) [] ["click"%string] [].

Definition vbox : Node :=
  mkNode "filler" None (Ok (PStr "")) [] [] [label1; button].

Definition window : Node :=
  mkNode "frame" (Some "Contador"%string) (Ok (PStr "")) [] [] [vbox].

Definition application : Node :=
  mkNode "application" (Some "contador.py"%string) (Ok (PStr "")) [] [] [window].

End Contador.

(* ================================================================== *)
(** ** Vocabulary of the statements *)

(** A condition value that is a literal string or byte string. *)
Definition is_literal (value : MatchPattern) : bool :=
  match value with
  | MStr _ | MBytes _ => true
  | _ => false
  end.

(** The predicate holds at exactly one position of the sequence. *)
Definition exactly_one (p : Node -> bool) (objs : list Node) : Prop :=
  exists i,
    (exists x, nth_error objs i = Some x /\ p x = true)
    /\ forall j y, nth_error objs j = Some y -> p y = true -> j = i.

(** The processes a trace kills. *)
Definition killed (tr : list Event) : list Process :=
  flat_map (fun ev => match ev with
                      | DoAction _ _ => []
                      | Kill p => [p]
                      end) tr.

(** Depth-first pre-order of a tree: the node, then the pre-order of
    each child's subtree, children taken in order. *)
Fixpoint preorder (root : Node) : list Node :=
  root :: flat_map preorder (children root).

(** [Tagged root start path x]: [x] is a node of the subtree rooted at
    [root], and [path] is its tag when [root] is tagged [start] and the
    [i]-th of [n] children is tagged with [(i, n)] appended to the tag
    of its parent. *)
Inductive Tagged (root : Node) (start : TreePath) : TreePath -> Node -> Prop :=
| Tagged_root : Tagged root start start root
| Tagged_child (path : TreePath) (x : Node) (i : nat) (child : Node) :
    Tagged root start path x ->
    nth_error (children x) i = Some child ->
    Tagged root start
      (path ++ [NthOf.mk (Z.of_nat i) (Z.of_nat (List.length (children x)))])
      child.

(** Induction over trees: a property holds of every node when it holds
    of a node as soon as it holds of all its children. *)
Section NodeInduction.

Variable P : Node -> Prop.
Hypothesis step : forall x, Forall P (children x) -> P x.

Fixpoint Node_children_ind (x : Node) : P x :=
  step x
    ((fix each (cs : list Node) : Forall P cs :=
        match cs with
        | [] => Forall_nil P
        | c :: cs' => Forall_cons c (Node_children_ind c) (each cs')
        end) (children x)).

End NodeInduction.

(* ================================================================== *)
(** ** Further vocabulary *)

(** The roots [objects_in] goes through: [[root_s]] for a single object,
    the collection itself otherwise. *)
Definition roots_of (root_s : RootS) : list Node :=
  match root_s with
  | OneRoot root => [root]
  | ManyRoots roots => roots
  end.

(** The outcome is the value true (not false, not an exception). *)
Definition is_ok_true (r : Result bool) : bool :=
  match r with
  | Ok true => true
  | _ => false
  end.

(** The walked items of a tree that a condition set accepts. *)
Definition accepted (kwargs : MatchArgs) (root : Node) : list Node :=
  map snd
    (filter (fun po => is_ok_true (matches (snd po) (fst po) kwargs))
       (tree_walk root ROOT_TREE_PATH)).

(** A segment [(i, n)] is a position among [n] siblings. *)
Definition valid_segment (seg : NthOf.t) : Prop :=
  (0 <= NthOf.i seg < NthOf.n seg)%Z.


(* ================================================================== *)
(** ** [Expectation.to_show] *)

(** The [text] argument of [to_show]: a [str] or a byte string. *)
Inductive AnyStr : Type :=
| AStr (s : string)
| ABytes (b : list byte).

(** [attr == text]. *)
Definition py_eq_text (attr : PyVal) (text : AnyStr) : bool :=
  match text with
  | AStr s => py_eq_str attr s
  | ABytes b => py_eq_bytes attr b
  end.

(** [lambda obj: obj_get_attr(obj, 'text') == text]. *)
Definition shows (text : AnyStr) (obj : Node) : Result bool :=
  bindR (obj_get_attr obj "text") (fun attr => Ok (py_eq_text attr text)).

(** The items a generator expression consumed from an iterator before
    [all] stopped on it: up to the first item that is not true. *)
Fixpoint drop_through_all (predicate : Node -> Result bool)
  (pending : list Node) : list Node :=
  match pending with
  | [] => []
  | obj :: pending' =>
      match predicate obj with
      | Ok true => drop_through_all predicate pending'
      | _ => pending'
      end
  end.

(** What a later [for obj in self.objects] still goes through once
    [_check] has returned false: a list is gone through again from its
    start, an iterator gives only what [_check] left in it. *)
Definition objects_after_check (self : Expectation.t)
  (predicate : Node -> Result bool) : list Node :=
  match Expectation.objects self with
  | PyList items => items
  | PyIterator pending =>
      if String.eqb (Expectation.which_one self) "all" then
        drop_through_all predicate pending
      else if String.eqb (Expectation.which_one self) "any" then []
      else if String.eqb (Expectation.which_one self) "first" then tl pending
      else []
  end.

(** [[f(obj) for obj in objs]], a raise aborting the comprehension. *)
Fixpoint py_map {A B} (f : A -> Result B) (xs : list A) : Result (list B) :=
  match xs with
  | [] => Ok []
  | x :: xs' =>
      bindR (f x) (fun y => bindR (py_map f xs') (fun ys => Ok (y :: ys)))
  end.

(** The line feed character. *)
Definition newline : string := String (Ascii.ascii_of_nat 10) EmptyString.

(** The double quote character. *)
Definition dquote : string := String (Ascii.ascii_of_nat 34) EmptyString.

Section ToShow.

(** Python's [str()] of an attribute value and of the expected text, as
    an f-string inserts them; both are fixed by the interpreter. *)
Variable py_str_val : PyVal -> string.
Variable py_str_text : AnyStr -> string.

(** One line of the diagnostic: two spaces, [_pprint(obj)], the word
    [shows] and, between double quotes, [obj_get_attr(obj, 'text')]. *)
Definition shows_line (obj : Node) : Result string :=
  bindR (obj_get_attr obj "text")
        (fun attr =>
           Ok ("  " ++ _pprint obj ++ " shows " ++ dquote
                 ++ py_str_val attr ++ dquote)%string).

(** [self.to_show(text)]. *)
Definition to_show (self : Expectation.t) (text : AnyStr) : Result unit :=
  let predicate := shows text in
  match Expectation._check self predicate with
  | Raise e => Raise e
  | Ok true => Ok tt
  | Ok false =>
      bindR (py_map shows_line (objects_after_check self predicate))
            (fun texts =>
               Raise (AssertionError
                        ("expect " ++ Expectation.which_one self
                           ++ " to show " ++ dquote ++ py_str_text text
                           ++ dquote ++ ", but:" ++ newline
                           ++ String.concat newline texts)%string))
  end.

End ToShow.

(* ================================================================== *)
(** ** The model at work on the counter application *)

Example tree_walk_application :
  tree_walk Contador.application ROOT_TREE_PATH
  = [([NthOf.mk 0 1], Contador.application);
     ([NthOf.mk 0 1; NthOf.mk 0 1], Contador.window);
     ([NthOf.mk 0 1; NthOf.mk 0 1; NthOf.mk 0 1], Contador.vbox);
     ([NthOf.mk 0 1; NthOf.mk 0 1; NthOf.mk 0 1; NthOf.mk 0 2], Contador.label1);
     ([NthOf.mk 0 1; NthOf.mk 0 1; NthOf.mk 0 1; NthOf.mk 1 2], Contador.button)].
Proof. reflexivity. Qed.

Example objects_in_labels :
  objects_in (OneRoot Contador.application) [("role"%string, MStr "label")]
  = Ok [Contador.label1].
Proof. reflexivity. Qed.

Example objects_in_button_named :
  objects_in (OneRoot Contador.application)
    [("role"%string, MStr "push button"); ("name"%string, MStr "Contar")]
  = Ok [Contador.button].
Proof. reflexivity. Qed.

Example objects_in_last_sibling :
  objects_in (OneRoot Contador.vbox) [("nth"%string, MInt (-1))]
  = Ok [Contador.vbox; Contador.button].
Proof. reflexivity. Qed.

Example objects_in_path_is_unbound :
  objects_in (OneRoot Contador.application) [("path"%string, MStr "0/1")]
  = Raise NameError.
Proof. reflexivity. Qed.

Example expect_any_shows :
  Expectation._check (expect_any (PyList [Contador.label1; Contador.button]))
    (fun obj => bindR (obj_get_attr obj "text")
                  (fun attr => Ok (py_eq_str attr "Has pulsado 0 veces")))
  = Ok true.
Proof. reflexivity. Qed.

(* ================================================================== *)
(** ** Attribute accessor *)

Lemma eqb_false_of_neq (a b : string) : a <> b -> String.eqb a b = false.
Proof. intro H. now apply String.eqb_neq. Qed.

(** C8. [obj_get_attr] resolves an attribute name in three tiers, in this
    order: the reserved synonyms [role] (the role name), [name] (the name,
    or the empty string) and [text] (the outcome of [get_text(0, -1)]);
    then a direct attribute of that name; then the attribute
    [get_<name>] called with no argument.  When no tier applies the
    call returns, as a value and without raising, an [AttributeError]
    whose message is [role('name') has no attribute <name>]. *)
Theorem obj_get_attr_three_tiers (obj : Node) (name : string) :
  (name = "role"%string -> obj_get_attr obj name = Ok (PStr (get_role_name obj)))
  /\ (name = "name"%string ->
      obj_get_attr obj name
      = Ok (PStr (match get_name obj with Some s => s | None => ""%string end)))
  /\ (name = "text"%string -> obj_get_attr obj name = get_text obj)
  /\ (name <> "role"%string -> name <> "name"%string -> name <> "text"%string ->
      (forall v, py_getattr obj name = Some v -> obj_get_attr obj name = Ok v)
      /\ (forall m,
             py_getattr obj name = None ->
             py_getattr obj ("get_" ++ name)%string = Some m ->
             obj_get_attr obj name = py_call0 m)
      /\ (py_getattr obj name = None ->
          py_getattr obj ("get_" ++ name)%string = None ->
          obj_get_attr obj name
          = Ok (PExcV (AttributeError
                         ((get_role_name obj ++ "('"
                             ++ match get_name obj with Some s => s | None => "" end
                             ++ "')")
                            ++ " has no attribute " ++ name)%string))
          /\ exists failure,
              obj_get_attr obj name = Ok failure /\ is_error failure = true)).
Proof.
  repeat split.
  - intros ->. reflexivity.
  - intros ->. reflexivity.
  - intros ->. reflexivity.
  - intros v Hv. unfold obj_get_attr.
    rewrite !eqb_false_of_neq by assumption. now rewrite Hv.
  - intros m Hn Hm. unfold obj_get_attr.
    rewrite !eqb_false_of_neq by assumption. now rewrite Hn, Hm.
  - unfold obj_get_attr. rewrite !eqb_false_of_neq by assumption.
    rewrite H2, H3. reflexivity.
  - unfold obj_get_attr. rewrite !eqb_false_of_neq by assumption.
    rewrite H2, H3. eexists. split; reflexivity.
Qed.

(** The button of the counter has no attribute [colour]: the lookup
    returns the typed failure. *)
Lemma obj_get_attr_three_tiers_witness :
  obj_get_attr Contador.button "colour"
  = Ok (PExcV (AttributeError "push button('Contar') has no attribute colour")).
Proof.
  destruct (obj_get_attr_three_tiers Contador.button "colour")
    as (_ & _ & _ & H).
  destruct H as (_ & _ & H); [discriminate | discriminate | discriminate | ].
  exact (proj1 (H eq_refl eq_refl)).
Defined.

(* ================================================================== *)
(** ** Matcher: positional and literal conditions *)

(** C9. When the last segment of a node's path has sibling count
    [n >= 1], the condition [nth = -1] and the condition [nth = n - 1]
    both return, with the same answer: whether [n - 1] is the node's
    sibling index.  More generally a negative [k] is compared as
    [n + k]. *)
Theorem nth_minus_one_is_last (obj : Node) (path : TreePath) (seg : NthOf.t)
  (Hlast : py_last path = Some seg) (Hn : (1 <= NthOf.n seg)%Z) :
  _match obj path "nth" (MInt (-1))
  = Ok (Z.eqb (NthOf.n seg - 1) (NthOf.i seg))
  /\ _match obj path "nth" (MInt (NthOf.n seg - 1))
     = Ok (Z.eqb (NthOf.n seg - 1) (NthOf.i seg))
  /\ (_match obj path "nth" (MInt (-1)) = Ok true
      <-> _match obj path "nth" (MInt (NthOf.n seg - 1)) = Ok true)
  /\ (forall k, (k < 0)%Z ->
        _match obj path "nth" (MInt k)
        = Ok (Z.eqb (NthOf.n seg + k) (NthOf.i seg))).
Proof.
  assert (Hneg : forall k, (k < 0)%Z ->
            _match obj path "nth" (MInt k)
            = Ok (Z.eqb (NthOf.n seg + k) (NthOf.i seg))).
  { intros k Hk. unfold _match. simpl. rewrite Hlast.
    destruct (Z.geb_spec k 0); [lia | reflexivity]. }
  assert (Hpos : _match obj path "nth" (MInt (NthOf.n seg - 1))
                 = Ok (Z.eqb (NthOf.n seg - 1) (NthOf.i seg))).
  { unfold _match. simpl. rewrite Hlast.
    destruct (Z.geb_spec (NthOf.n seg - 1) 0); [reflexivity | lia]. }
  assert (Hm1 : _match obj path "nth" (MInt (-1))
                = Ok (Z.eqb (NthOf.n seg - 1) (NthOf.i seg))).
  { rewrite Hneg by lia. do 2 f_equal. }
  repeat split; try assumption.
  - intros H. rewrite Hpos, <- Hm1. exact H.
  - intros H. rewrite Hm1, <- Hpos. exact H.
Qed.

(** The button of the counter is the second of two siblings. *)
Lemma nth_minus_one_is_last_witness :
  _match Contador.button [NthOf.mk 0 1; NthOf.mk 1 2] "nth" (MInt (-1)) = Ok true
  /\ _match Contador.button [NthOf.mk 0 1; NthOf.mk 1 2] "nth" (MInt 1) = Ok true.
Proof.
  destruct (nth_minus_one_is_last Contador.button
              [NthOf.mk 0 1; NthOf.mk 1 2] (NthOf.mk 1 2) eq_refl)
    as (H1 & H2 & _).
  - simpl. lia.
  - split; [exact H1 | exact H2].
Defined.

Lemma py_filter_skip {A} (f : A -> Result bool) (before after : list A) (x : A) :
  f x = Ok false ->
  py_filter f (before ++ x :: after) = py_filter f (before ++ after).
Proof.
  intro Hx. induction before as [|b before IH]; simpl.
  - now rewrite Hx; destruct (py_filter f after).
  - now rewrite IH.
Qed.

(** C10. For an attribute condition (a name other than [path], [nth] and
    [when]) whose value is a literal string or byte string, a lookup
    that yields a failure value makes the condition false, without
    raising: the failure value equals no literal.  A query whose first
    condition is such a literal does not accept the node, and its result
    is the one it would give were the node not walked at all. *)
Theorem literal_on_missing_attribute_is_false
  (obj : Node) (path : TreePath) (name : string) (value : MatchPattern)
  (failure : PyVal)
  (Hpath : name <> "path"%string) (Hnth : name <> "nth"%string)
  (Hwhen : name <> "when"%string)
  (Hlit : is_literal value = true)
  (Hget : obj_get_attr obj name = Ok failure)
  (Hfail : is_error failure = true) :
  (forall s, py_eq_str failure s = false)
  /\ (forall b, py_eq_bytes failure b = false)
  /\ _match obj path name value = Ok false
  /\ (forall others, matches obj path ((name, value) :: others) = Ok false)
  /\ (forall others before after,
         select (before ++ (path, obj) :: after) ((name, value) :: others)
         = select (before ++ after) ((name, value) :: others)).
Proof.
  assert (Hs : forall s, py_eq_str failure s = false)
    by (destruct failure; try discriminate; reflexivity).
  assert (Hb : forall b, py_eq_bytes failure b = false)
    by (destruct failure; try discriminate; reflexivity).
  assert (Hm : _match obj path name value = Ok false).
  { unfold _match. rewrite !eqb_false_of_neq by assumption.
    destruct value; try discriminate; rewrite Hget; simpl.
    - now rewrite Hs.
    - now rewrite Hb. }
  assert (Hall : forall others,
             matches obj path ((name, value) :: others) = Ok false).
  { intros others. unfold matches. simpl. now rewrite Hm. }
  repeat split; try assumption.
  intros others before after. unfold select.
  now rewrite py_filter_skip by (simpl; apply Hall).
Qed.

(** Asking the label of the counter for [colour = "red"]. *)
Lemma literal_on_missing_attribute_is_false_witness :
  _match Contador.label1 ROOT_TREE_PATH "colour" (MStr "red") = Ok false.
Proof.
  refine (proj1 (proj2 (proj2
    (literal_on_missing_attribute_is_false Contador.label1 ROOT_TREE_PATH
       "colour" (MStr "red")
       (PExcV (AttributeError "label('Has pulsado 0 veces') has no attribute colour"))
       _ _ _ eq_refl eq_refl eq_refl)))); discriminate.
Defined.

(* ================================================================== *)
(** ** Expectation engine *)

Lemma py_filter_total (p : Node -> bool) (objs : list Node) :
  py_filter (total p) objs = Ok (filter p objs).
Proof.
  induction objs as [|x objs IH]; simpl; [reflexivity|].
  rewrite IH. now destruct (p x).
Qed.

Lemma filter_nil_iff (p : Node -> bool) (objs : list Node) :
  filter p objs = [] <-> forall j y, nth_error objs j = Some y -> p y = false.
Proof.
  induction objs as [|x objs IH]; simpl.
  - split; [|reflexivity]. intros _ [|j] y; discriminate.
  - destruct (p x) eqn:Hx; split.
    + discriminate.
    + intro H. specialize (H 0 x eq_refl). congruence.
    + intros H [|j] y Hj; simpl in Hj.
      * now injection Hj as <-.
      * exact (proj1 IH H j y Hj).
    + intro H. apply IH. intros j y Hj. now apply (H (S j)).
Qed.

Lemma exactly_one_filter (p : Node -> bool) (objs : list Node) :
  exactly_one p objs <-> List.length (filter p objs) = 1.
Proof.
  induction objs as [|x objs IH]; simpl.
  - split; [|discriminate]. intros (i & (y & Hy & _) & _).
    destruct i; discriminate.
  - destruct (p x) eqn:Hx; simpl.
    + split.
      * intros (i & _ & Huniq). f_equal.
        assert (Hi : 0 = i) by (apply (Huniq 0 x); [reflexivity | assumption]).
        subst i. apply length_zero_iff_nil, filter_nil_iff.
        intros j y Hj. destruct (p y) eqn:Hy; [|reflexivity].
        specialize (Huniq (S j) y Hj Hy). discriminate.
      * intro H. injection H as H. apply length_zero_iff_nil in H.
        exists 0. split; [exists x; now split|].
        intros [|j] y Hj Hy; [reflexivity|]. simpl in Hj.
        rewrite (proj1 (filter_nil_iff p objs) H j y Hj) in Hy. discriminate.
    + rewrite <- IH. split.
      * intros (i & (y & Hy & Hpy) & Huniq). destruct i as [|i].
        { simpl in Hy. injection Hy as <-. congruence. }
        exists i. split; [exists y; now split|].
        intros j z Hj Hz. specialize (Huniq (S j) z Hj Hz). now injection Huniq.
      * intros (i & (y & Hy & Hpy) & Huniq). exists (S i).
        split; [exists y; now split|].
        intros [|j] z Hj Hz; simpl in Hj.
        { injection Hj as <-. congruence. }
        f_equal. now apply (Huniq j z).
Qed.

(** C3. For a predicate that returns a boolean, [_check] under the
    quantifier [one] always returns, and it returns true exactly when the
    predicate holds at exactly one position of the candidate sequence.
    With no position or with two or more positions satisfying the
    predicate the answer is false, and this does not follow what [any]
    and [all] answer: on two candidates that both satisfy the predicate
    [any] and [all] return true while [one] returns false. *)
Theorem check_one_iff_exactly_one (p : Node -> bool) (objs : Iterable) :
  (Expectation._check (expect_one objs) (total p) = Ok true
   <-> exactly_one p (items_of objs))
  /\ Expectation._check (expect_one objs) (total p)
     = Ok (Nat.eqb (List.length (filter p (items_of objs))) 1)
  /\ (List.length (filter p (items_of objs)) = 0 ->
      Expectation._check (expect_one objs) (total p) = Ok false)
  /\ (2 <= List.length (filter p (items_of objs)) ->
      Expectation._check (expect_one objs) (total p) = Ok false)
  /\ (forall x y, p x = true -> p y = true ->
        Expectation._check (expect_one (PyList [x; y])) (total p) = Ok false
        /\ Expectation._check (expect_any (PyList [x; y])) (total p) = Ok true
        /\ Expectation._check (expect_all (PyList [x; y])) (total p) = Ok true).
Proof.
  assert (H : Expectation._check (expect_one objs) (total p)
              = Ok (Nat.eqb (List.length (filter p (items_of objs))) 1)).
  { unfold Expectation._check. simpl. now rewrite py_filter_total. }
  repeat split.
  - rewrite H. intro E. injection E as E. apply Nat.eqb_eq in E.
    now apply exactly_one_filter.
  - intro E. apply exactly_one_filter in E. now rewrite H, E.
  - exact H.
  - intro E. now rewrite H, E.
  - intro E. rewrite H. f_equal. apply Nat.eqb_neq. lia.
  - unfold Expectation._check, total. simpl. now rewrite H0, H1.
  - unfold Expectation._check, total. simpl. now rewrite H0.
  - unfold Expectation._check, total. simpl. now rewrite H0, H1.
Qed.

(** Among the label and the button of the counter, exactly one is a
    label. *)
Lemma check_one_iff_exactly_one_witness :
  Expectation._check
    (expect_one (PyList [Contador.label1; Contador.button]))
    (total (fun obj => String.eqb (get_role_name obj) "label"))
  = Ok true.
Proof.
  apply (proj2 (proj1 (check_one_iff_exactly_one
                         (fun obj => String.eqb (get_role_name obj) "label")
                         (PyList [Contador.label1; Contador.button])))).
  exists 0. split.
  - exists Contador.label1. split; reflexivity.
  - intros [|[|[|j]]] y Hj Hy; simpl in Hj; try discriminate.
    + reflexivity.
    + injection Hj as <-. discriminate.
Defined.

Lemma check_all_empty (predicate : Node -> Result bool) (objs : Iterable) :
  items_of objs = [] ->
  Expectation._check (expect_all objs) predicate = Ok true.
Proof. intro H. unfold Expectation._check. simpl. now rewrite H. Qed.

Lemma check_any_empty (predicate : Node -> Result bool) (objs : Iterable) :
  items_of objs = [] ->
  Expectation._check (expect_any objs) predicate = Ok false.
Proof. intro H. unfold Expectation._check. simpl. now rewrite H. Qed.

Lemma check_first_empty_iterator (predicate : Node -> Result bool) :
  Expectation._check (expect_first (PyIterator [])) predicate = Ok false.
Proof. reflexivity. Qed.

Lemma check_first_iterator (predicate : Node -> Result bool)
  (obj : Node) (pending : list Node) :
  Expectation._check (expect_first (PyIterator (obj :: pending))) predicate
  = predicate obj.
Proof. reflexivity. Qed.

(** C7, at the empty list.  Under the quantifier [first], [_check] calls
    [next] on the candidates as they are; a list, such as the one
    [objects_in] returns, is not an iterator, so the call raises
    [TypeError] instead of returning false.  (On the empty sequence [all]
    returns true and [any] false, for a list and an iterator alike, and
    [first] returns false on an empty iterator: see [check_all_empty],
    [check_any_empty] and [check_first_empty_iterator].) *)
Theorem check_first_empty_list_raises (predicate : Node -> Result bool) :
  Expectation._check (expect_first (PyList [])) predicate = Raise TypeError
  /\ Expectation._check (expect_all (PyList [])) predicate = Ok true
  /\ Expectation._check (expect_any (PyList [])) predicate = Ok false.
Proof. repeat split. Qed.

(* ================================================================== *)
(** ** Action dispatcher *)

Lemma do_action_found (action_name : string) (obj : Node) (idx : nat)
  (tr : list Event) :
  _get_action_idx obj action_name = Some idx ->
  Action._do_action action_name obj tr = (Ok tt, tr ++ [DoAction obj idx]).
Proof. intro H. unfold Action._do_action. now rewrite H. Qed.

Lemma do_action_not_found (action_name : string) (obj : Node)
  (tr : list Event) :
  _get_action_idx obj action_name = None ->
  exists msg,
    Action._do_action action_name obj tr = (Raise (NotFoundError msg), tr).
Proof. intro H. unfold Action._do_action. rewrite H. now eexists. Qed.

(** C1. [on] applied to a sequence of exactly one node does what
    [_do_action] does on that node: when the node has an action of the
    requested name, that action is performed on it and nothing else is
    performed; when it has none, the call fails with the not-found
    diagnostic and performs nothing.  Applied to a sequence of two or
    more nodes, [on] raises the [AssertionError] of an ambiguous target
    and performs no action at all.  Both hold for a list and for an
    iterator. *)
Theorem on_acts_on_sole_node_or_fails
  (py_str : Iterable -> string) (action_name : string) (objs : Iterable)
  (tr : list Event) :
  (forall x, items_of objs = [x] ->
     Action.on py_str action_name objs tr = Action._do_action action_name x tr
     /\ (forall idx, _get_action_idx x action_name = Some idx ->
           Action.on py_str action_name objs tr
           = (Ok tt, tr ++ [DoAction x idx]))
     /\ (_get_action_idx x action_name = None ->
         exists msg,
           Action.on py_str action_name objs tr
           = (Raise (NotFoundError msg), tr)))
  /\ (forall x y rest, items_of objs = x :: y :: rest ->
        Action.on py_str action_name objs tr
        = (Raise (AssertionError
                    ("when doing '" ++ action_name ++ "' on object"
                       ++ ", found more than one object: " ++ py_str objs)%string),
           tr)).
Proof.
  split.
  - intros x Hx.
    assert (H : Action.on py_str action_name objs tr
                = Action._do_action action_name x tr).
    { unfold Action.on, py_iter. now rewrite Hx. }
    rewrite H. repeat split.
    + intros idx Hidx. now apply do_action_found.
    + intros Hnone. now apply do_action_not_found.
  - intros x y rest Hxy. unfold Action.on, py_iter. now rewrite Hxy.
Qed.

(** Clicking on the button of the counter, alone and together with the
    label. *)
Lemma on_acts_on_sole_node_or_fails_witness :
  Action.on (fun _ => "[...]"%string) "click" (PyList [Contador.button]) []
  = (Ok tt, [DoAction Contador.button 0])
  /\ Action.on (fun _ => "[...]"%string) "click"
       (PyList [Contador.label1; Contador.button]) []
     = (Raise (AssertionError
                 "when doing 'click' on object, found more than one object: [...]"),
        []).
Proof.
  split.
  - apply (proj1 (on_acts_on_sole_node_or_fails (fun _ => "[...]"%string)
                    "click" (PyList [Contador.button]) [])
             Contador.button eq_refl).
    reflexivity.
  - apply (proj2 (on_acts_on_sole_node_or_fails (fun _ => "[...]"%string)
                    "click" (PyList [Contador.label1; Contador.button]) [])
             Contador.label1 Contador.button [] eq_refl).
Defined.

Lemma on_first_iterator (action_name : string) (obj : Node)
  (pending : list Node) (tr : list Event) :
  Action.on_first action_name (PyIterator (obj :: pending)) tr
  = Action._do_action action_name obj tr.
Proof. reflexivity. Qed.

Lemma on_first_empty_iterator (action_name : string) (tr : list Event) :
  Action.on_first action_name (PyIterator []) tr = (Raise StopIteration, tr).
Proof. reflexivity. Qed.

(** C4, at a list.  [on_first] calls [next] on its argument as it is,
    without the [iter] that [on] applies first; a list, such as the one
    [objects_in] returns, is not an iterator, so the call raises
    [TypeError] and performs no action, whatever the list holds: neither
    the first node is acted upon nor, for the empty list, is the
    empty-sequence condition [StopIteration] what propagates.  (On an
    iterator the mode does what is expected of it: see
    [on_first_iterator] and [on_first_empty_iterator].) *)
Theorem on_first_list_raises (action_name : string) (objs : list Node)
  (tr : list Event) :
  Action.on_first action_name (PyList objs) tr = (Raise TypeError, tr).
Proof. reflexivity. Qed.

(* ================================================================== *)
(** ** Session scope *)

Lemma py_with_after_entry {A} (p : Process) (root : Node) (path : string)
  (body : SUT.t -> M A) (tr : list Event) :
  py_with (SUT.mk (Some p) (Some root) path) body tr
  = (fst (body (SUT.mk (Some p) (Some root) path) tr),
     snd (body (SUT.mk (Some p) (Some root) path) tr) ++ [Kill p]).
Proof.
  unfold py_with. simpl.
  now destruct (body (SUT.mk (Some p) (Some root) path) tr).
Qed.

(** C2, at a session without application.  Entering the session in a
    [with] statement raises the [RuntimeError] of [__enter__] and the
    body is not run; but [__exit__], which is what kills the process,
    runs only after a successful entry, so the trace of outside calls is
    left as it was: the spawned process is not killed.  (After a
    successful entry the process is killed however the body ends: see
    [py_with_after_entry].) *)
Theorem py_with_absent_app_leaks_process {A} (p : Process) (path : string)
  (body : SUT.t -> M A) (tr : list Event) :
  py_with (SUT.mk (Some p) None path) body tr
  = (Raise (RuntimeError
              ("the application " ++ path ++ " didn't show up in desktop")%string),
     tr)
  /\ killed (snd (py_with (SUT.mk (Some p) None path) body tr)) = killed tr.
Proof. split; reflexivity. Qed.

(* ================================================================== *)
(** ** Tree walker *)

Lemma tree_walk_unfold (root : Node) (path : TreePath) :
  tree_walk root path
  = (path, root)
      :: walk_children tree_walk path (List.length (children root)) 0
           (children root).
Proof. destruct root; reflexivity. Qed.

Lemma preorder_unfold (root : Node) :
  preorder root = root :: flat_map preorder (children root).
Proof. destruct root; reflexivity. Qed.

Lemma walk_children_in (cs : list Node) :
  forall (path : TreePath) (n i : nat) (q : TreePath) (x : Node),
    In (q, x) (walk_children tree_walk path n i cs)
    <-> exists j c,
        nth_error cs j = Some c
        /\ In (q, x)
             (tree_walk c
                (path ++ [NthOf.mk (Z.of_nat (i + j)) (Z.of_nat n)])).
Proof.
  induction cs as [|c0 cs IH]; intros path n i q x; simpl.
  - split; [tauto|]. intros (j & c & Hj & _). destruct j; discriminate.
  - rewrite in_app_iff, IH. split.
    + intros [H | (j & c & Hj & H)].
      * exists 0, c0. rewrite Nat.add_0_r. now split.
      * exists (S j), c. rewrite Nat.add_succ_r. now split.
    + intros (j & c & Hj & H). destruct j as [|j]; simpl in Hj.
      * injection Hj as <-. rewrite Nat.add_0_r in H. now left.
      * right. exists j, c. rewrite Nat.add_succ_r in H. now split.
Qed.

Lemma nth_error_Forall {A} (P : A -> Prop) (l : list A) (j : nat) (a : A) :
  Forall P l -> nth_error l j = Some a -> P a.
Proof.
  intros HF Hj. apply nth_error_In in Hj.
  now apply (proj1 (Forall_forall P l) HF).
Qed.

(** Every tag yielded below a node extends the tag of that node. *)
Lemma tree_walk_prefix (root : Node) :
  forall path q x, In (q, x) (tree_walk root path) -> exists s, q = path ++ s.
Proof.
  induction root as [root IH] using Node_children_ind.
  intros path q x. rewrite tree_walk_unfold. intros [H | H].
  - injection H as <- _. exists []. now rewrite app_nil_r.
  - apply walk_children_in in H. destruct H as (j & c & Hj & H).
    destruct (nth_error_Forall _ _ _ _ IH Hj _ _ _ H) as (s & ->).
    rewrite <- app_assoc. now eexists.
Qed.

Lemma walk_children_prefix (cs : list Node) (path : TreePath) (n i : nat)
  (q : TreePath) (x : Node) :
  In (q, x) (walk_children tree_walk path n i cs) ->
  exists j s, q = path ++ NthOf.mk (Z.of_nat (i + j)) (Z.of_nat n) :: s.
Proof.
  intro H. apply walk_children_in in H. destruct H as (j & c & _ & H).
  apply tree_walk_prefix in H. destruct H as (s & ->).
  exists j, s. now rewrite <- app_assoc.
Qed.

Lemma walk_children_NoDup (cs : list Node) :
  Forall (fun c => forall path, NoDup (map fst (tree_walk c path))) cs ->
  forall path n i, NoDup (map fst (walk_children tree_walk path n i cs)).
Proof.
  induction 1 as [|c cs Hc _ IH]; intros path n i; simpl.
  - constructor.
  - rewrite map_app. apply NoDup_app; [apply Hc | apply IH |].
    intros q H1 H2.
    apply in_map_iff in H1. destruct H1 as ((q1 & x1) & <- & H1).
    apply in_map_iff in H2. destruct H2 as ((q2 & x2) & E & H2).
    simpl in E. subst q2.
    apply tree_walk_prefix in H1. destruct H1 as (s1 & ->).
    apply walk_children_prefix in H2. destruct H2 as (j & s2 & E).
    rewrite <- app_assoc in E. apply app_inv_head in E.
    simpl in E. injection E as E _. lia.
Qed.

Lemma tree_walk_NoDup (root : Node) :
  forall path, NoDup (map fst (tree_walk root path)).
Proof.
  induction root as [root IH] using Node_children_ind.
  intro path. rewrite tree_walk_unfold. simpl. constructor.
  - intro H. apply in_map_iff in H. destruct H as ((q & x) & E & H).
    simpl in E. subst q.
    apply walk_children_prefix in H. destruct H as (j & s & E).
    rewrite <- (app_nil_r path) in E at 1. apply app_inv_head in E.
    discriminate.
  - now apply walk_children_NoDup.
Qed.

Lemma walk_children_nodes (cs : list Node) :
  Forall (fun c => forall path, map snd (tree_walk c path) = preorder c) cs ->
  forall path n i,
    map snd (walk_children tree_walk path n i cs) = flat_map preorder cs.
Proof.
  induction 1 as [|c cs Hc _ IH]; intros path n i; simpl.
  - reflexivity.
  - now rewrite map_app, Hc, IH.
Qed.

Lemma tree_walk_nodes (root : Node) :
  forall path, map snd (tree_walk root path) = preorder root.
Proof.
  induction root as [root IH] using Node_children_ind.
  intro path. rewrite tree_walk_unfold, preorder_unfold. simpl.
  f_equal. now apply walk_children_nodes.
Qed.

Lemma Tagged_trans (root c : Node) (start mid q : TreePath) (x : Node) :
  Tagged root start mid c -> Tagged c mid q x -> Tagged root start q x.
Proof.
  intros Hc Hx. induction Hx as [|q x i child _ IH Hi].
  - exact Hc.
  - now apply Tagged_child.
Qed.

Lemma tree_walk_sound (root : Node) :
  forall path q x, In (q, x) (tree_walk root path) -> Tagged root path q x.
Proof.
  induction root as [root IH] using Node_children_ind.
  intros path q x. rewrite tree_walk_unfold. intros [H | H].
  - injection H as <- <-. constructor.
  - apply walk_children_in in H. destruct H as (j & c & Hj & H).
    simpl in H.
    apply (nth_error_Forall _ _ _ _ IH Hj) in H.
    refine (Tagged_trans _ _ _ _ _ _ _ H).
    apply Tagged_child; [constructor | exact Hj].
Qed.

Lemma tree_walk_children_closed (root : Node) :
  forall path q x i child,
    In (q, x) (tree_walk root path) ->
    nth_error (children x) i = Some child ->
    In (q ++ [NthOf.mk (Z.of_nat i) (Z.of_nat (List.length (children x)))],
        child)
      (tree_walk root path).
Proof.
  induction root as [root IH] using Node_children_ind.
  intros path q x i child. rewrite tree_walk_unfold. intros [H | H] Hi.
  - injection H as <- <-. right. apply walk_children_in.
    exists i, child. split; [exact Hi|].
    rewrite tree_walk_unfold. now left.
  - right. apply walk_children_in in H. destruct H as (j & c & Hj & H).
    apply walk_children_in. exists j, c. split; [exact Hj|].
    now apply (nth_error_Forall _ _ _ _ IH Hj).
Qed.

Lemma tree_walk_complete (root : Node) (path q : TreePath) (x : Node) :
  Tagged root path q x -> In (q, x) (tree_walk root path).
Proof.
  induction 1 as [|q x i child _ IH Hi].
  - rewrite tree_walk_unfold. now left.
  - now apply tree_walk_children_closed.
Qed.

(** C6. The walk from a root yields the nodes of the subtree in
    depth-first pre-order; the root comes first, tagged [(0, 1)]; what
    is yielded is exactly the root with that tag and, for each yielded
    node, its [i]-th of [n] children with [(i, n)] appended to the
    node's tag; and no tag is yielded twice, so that every node of the
    subtree is visited once and only once. *)
Theorem tree_walk_preorder_tagged_once (root : Node) :
  map snd (tree_walk root ROOT_TREE_PATH) = preorder root
  /\ hd_error (tree_walk root ROOT_TREE_PATH)
     = Some ([NthOf.mk 0 1], root)
  /\ (forall path x,
         In (path, x) (tree_walk root ROOT_TREE_PATH)
         <-> Tagged root [NthOf.mk 0 1] path x)
  /\ NoDup (map fst (tree_walk root ROOT_TREE_PATH))
  /\ List.length (tree_walk root ROOT_TREE_PATH) = List.length (preorder root).
Proof.
  repeat split.
  - apply tree_walk_nodes.
  - now rewrite tree_walk_unfold.
  - apply tree_walk_sound.
  - apply tree_walk_complete.
  - apply tree_walk_NoDup.
  - now rewrite <- (tree_walk_nodes root ROOT_TREE_PATH), length_map.
Qed.

(* ================================================================== *)
(** ** Matcher: composition of condition sets *)

Section Composition.

Context {A : Type} (f : A -> Result bool).

Lemma py_and_assoc (a b c : Result bool) :
  py_and (py_and a b) c = py_and a (py_and b c).
Proof. now destruct a as [[|]|]. Qed.

Lemma py_all_app (l1 l2 : list A) :
  py_all f (l1 ++ l2) = py_and (py_all f l1) (py_all f l2).
Proof.
  induction l1 as [|x l1 IH]; simpl; [reflexivity|].
  now destruct (f x) as [[|]|].
Qed.

Lemma py_all_true_In (l : list A) (x : A) :
  py_all f l = Ok true -> In x l -> f x = Ok true.
Proof.
  induction l as [|y l IH]; simpl; [tauto|].
  destruct (f y) as [[|]|] eqn:Hy; try discriminate.
  intros H [<- | Hin]; [exact Hy | now apply IH].
Qed.

End Composition.

Lemma dict_get_In (name : string) (d : MatchArgs) (v : MatchPattern) :
  dict_get name d = Some v -> In (name, v) d.
Proof.
  induction d as [|(k, w) d IH]; simpl; [discriminate|].
  destruct (String.eqb_spec k name) as [-> | _].
  - intro H. injection H as <-. now left.
  - intro H. right. now apply IH.
Qed.

Lemma dict_get_name (name : string) (d : MatchArgs) (v : MatchPattern) :
  dict_get name d = Some v -> In name (map fst d).
Proof.
  intro H. apply dict_get_In in H.
  apply in_map_iff. now exists (name, v).
Qed.

Lemma dict_set_same (name : string) (v : MatchPattern) (d : MatchArgs) :
  dict_get name d = Some v -> dict_set name v d = d.
Proof.
  induction d as [|(k, w) d IH]; simpl; [discriminate|].
  destruct (String.eqb k name).
  - intro H. now injection H as <-.
  - intro H. now rewrite IH.
Qed.

Lemma dict_set_new (name : string) (v : MatchPattern) (d : MatchArgs) :
  dict_get name d = None -> dict_set name v d = d ++ [(name, v)].
Proof.
  induction d as [|(k, w) d IH]; simpl; [reflexivity|].
  destruct (String.eqb k name); [discriminate|].
  intro H. now rewrite IH.
Qed.

Lemma dict_get_set_other (name other : string) (v : MatchPattern)
  (d : MatchArgs) :
  name <> other -> dict_get other (dict_set name v d) = dict_get other d.
Proof.
  intro Hne. induction d as [|(k, w) d IH]; simpl.
  - now rewrite eqb_false_of_neq.
  - destruct (String.eqb_spec k name) as [-> | _]; simpl.
    + now rewrite eqb_false_of_neq.
    + now rewrite IH.
Qed.

Lemma py_all_dict_union {f : string * MatchPattern -> Result bool}
  (c2 : MatchArgs) :
  forall c1,
    is_dict c2 -> agree c1 c2 ->
    py_all f (dict_union c1 c2) = py_and (py_all f c1) (py_all f c2).
Proof.
  unfold is_dict, dict_union.
  induction c2 as [|(k, v) c2 IH]; intros c1 Hnd Hag; simpl.
  - now destruct (py_all f c1) as [[|]|].
  - inversion Hnd as [|? ? Hk Hnd']; subst.
    rewrite IH; [|exact Hnd'|].
    + destruct (dict_get k c1) as [w|] eqn:Hget.
      * assert (w = v) as ->.
        { apply (Hag k w v Hget). simpl. now rewrite String.eqb_refl. }
        rewrite dict_set_same by exact Hget.
        destruct (py_all f c1) as [[|]|] eqn:Hall; simpl; try reflexivity.
        now rewrite (py_all_true_In f c1 (k, v) Hall (dict_get_In _ _ _ Hget)).
      * rewrite dict_set_new by exact Hget.
        rewrite py_all_app, py_and_assoc. f_equal.
        simpl. now destruct (f (k, v)) as [[|]|].
    + intros name v1 v2 H1 H2.
      assert (Hne : k <> name).
      { intros ->. apply Hk. simpl. now apply (dict_get_name _ _ v2). }
      simpl in H1. rewrite dict_get_set_other in H1 by exact Hne.
      apply (Hag name v1 v2 H1). simpl. now rewrite eqb_false_of_neq.
Qed.

(** C5, for condition sets that agree.  When every condition name that
    [c1] and [c2] share carries the same value in both, matching a node
    against their union has the outcome of (matching it against [c1])
    [and] (matching it against [c2]), Python's [and] evaluating its
    second operand only when the first returned true.  The empty
    condition set matches every node, and the query with no condition
    returns every node of the subtree.  ([c1] needs not even be free of
    repeated names for this.) *)
Theorem matches_union_of_agreeing (obj : Node) (path : TreePath)
  (c1 c2 : MatchArgs) (Hdict : is_dict c2) (Hagree : agree c1 c2) :
  matches obj path (dict_union c1 c2)
  = py_and (matches obj path c1) (matches obj path c2)
  /\ matches obj path [] = Ok true
  /\ (forall root, _find_all_descendants root [] = Ok (preorder root)).
Proof.
  repeat split.
  - unfold matches. now apply py_all_dict_union.
  - intro root. unfold _find_all_descendants. simpl.
    now rewrite tree_walk_nodes.
Qed.

(** Push buttons, and push buttons named [Contar]: the button of the
    counter matches both, and their union. *)
Lemma matches_union_of_agreeing_witness :
  matches Contador.button [NthOf.mk 0 1; NthOf.mk 1 2]
    (dict_union [("role"%string, MStr "push button")]
       [("role"%string, MStr "push button"); ("name"%string, MStr "Contar")])
  = Ok true.
Proof.
  refine (proj1 (matches_union_of_agreeing Contador.button
                   [NthOf.mk 0 1; NthOf.mk 1 2]
                   [("role"%string, MStr "push button")]
                   [("role"%string, MStr "push button");
                    ("name"%string, MStr "Contar")] _ _)).
  - unfold is_dict. simpl.
    apply NoDup_cons; [|apply NoDup_cons; [|apply NoDup_nil]]; simpl.
    + intros [H | []]. discriminate H.
    + intros [].
  - intros name v1 v2 H1 H2. cbn [dict_get] in H1, H2.
    destruct (String.eqb "role" name); [|discriminate H1].
    injection H1 as <-. now injection H2 as <-.
Defined.

(** C5 fails for condition sets that disagree on a shared name: the
    union keeps one value for [role], so the button of the counter
    matches the union of "role is label" and "role is push button"
    although it does not match the first of the two. *)
Lemma matches_union_of_conflicting :
  matches Contador.button [NthOf.mk 0 1; NthOf.mk 1 2]
    (dict_union [("role"%string, MStr "label")]
       [("role"%string, MStr "push button")])
  <> py_and
       (matches Contador.button [NthOf.mk 0 1; NthOf.mk 1 2]
          [("role"%string, MStr "label")])
       (matches Contador.button [NthOf.mk 0 1; NthOf.mk 1 2]
          [("role"%string, MStr "push button")]).
Proof. vm_compute. discriminate. Qed.

(** Merging the other way round keeps the value of "role is label", and
    then it is the label of the counter that matches the union without
    matching both sets. *)
Lemma matches_union_of_conflicting_flipped :
  matches Contador.label1 [NthOf.mk 0 1; NthOf.mk 0 2]
    (dict_union [("role"%string, MStr "push button")]
       [("role"%string, MStr "label")])
  <> py_and
       (matches Contador.label1 [NthOf.mk 0 1; NthOf.mk 0 2]
          [("role"%string, MStr "label")])
       (matches Contador.label1 [NthOf.mk 0 1; NthOf.mk 0 2]
          [("role"%string, MStr "push button")]).
Proof. vm_compute. discriminate. Qed.

(* ================================================================== *)
(** * Further properties of the library *)

(* ================================================================== *)
(** ** Tree walker: prefixes, tags and subtrees *)

Lemma walk_children_relocate (cs : list Node) (prefix : TreePath) :
  Forall (fun c => forall path,
              tree_walk c (prefix ++ path)
              = map (fun po => (prefix ++ fst po, snd po)) (tree_walk c path)) cs ->
  forall path n i,
    walk_children tree_walk (prefix ++ path) n i cs
    = map (fun po => (prefix ++ fst po, snd po)) (walk_children tree_walk path n i cs).
Proof.
  induction 1 as [|c cs Hc _ IH]; intros path n i; simpl.
  - reflexivity.
  - now rewrite map_app, <- Hc, <- IH, app_assoc.
Qed.

(** X1. The [path] argument of [tree_walk] is only a prefix: walking
    under the prefix [prefix ++ path] yields, in the same order, the
    nodes that walking under [path] yields, each tag with [prefix] put
    in front. *)
Theorem tree_walk_prefix_relocates (root : Node) (prefix path : TreePath) :
  tree_walk root (prefix ++ path)
  = map (fun po => (prefix ++ fst po, snd po)) (tree_walk root path).
Proof.
  revert path. induction root as [root IH] using Node_children_ind.
  intro path. rewrite !tree_walk_unfold. simpl. f_equal.
  now apply (walk_children_relocate (children root) prefix).
Qed.

Lemma Tagged_valid (root : Node) (path : TreePath) (x : Node) :
  Tagged root ROOT_TREE_PATH path x ->
  Forall valid_segment path
  /\ exists front seg, path = front ++ [seg].
Proof.
  induction 1 as [|path x i child _ [IH _] Hi].
  - split.
    + repeat constructor; simpl; lia.
    + now exists [], (NthOf.mk 0 1).
  - split.
    + apply Forall_app. split; [exact IH|].
      repeat constructor; simpl; try lia.
      apply Nat2Z.inj_lt, nth_error_Some. now rewrite Hi.
    + now eexists _, _.
Qed.

Lemma py_last_app (front : TreePath) (seg : NthOf.t) :
  py_last (front ++ [seg]) = Some seg.
Proof.
  induction front as [|a front IH]; [reflexivity|].
  simpl. rewrite IH. now destruct (front ++ [seg]) eqn:E;
    [destruct front; discriminate|].
Qed.

Lemma tree_walk_last_segment (root : Node) (path : TreePath) (x : Node) :
  In (path, x) (tree_walk root ROOT_TREE_PATH) ->
  exists seg, py_last path = Some seg /\ valid_segment seg.
Proof.
  intro Hin. apply tree_walk_sound in Hin.
  destruct (Tagged_valid _ _ _ Hin) as (Hall & front & seg & ->).
  exists seg. split; [apply py_last_app|].
  apply Forall_app in Hall. destruct Hall as [_ Hseg].
  now inversion Hseg.
Qed.

(** X2. Every tag the walk from a root yields is a non-empty path that
    starts with [(0, 1)] and whose segments [(i, n)] all satisfy
    [0 <= i < n]; in particular its last segment exists, so that [path[-1]]
    never fails on a walked node. *)
Theorem tree_walk_paths_valid (root : Node) (path : TreePath) (x : Node)
  (Hin : In (path, x) (tree_walk root ROOT_TREE_PATH)) :
  Forall valid_segment path
  /\ hd_error path = Some (NthOf.mk 0 1)
  /\ exists seg, py_last path = Some seg /\ valid_segment seg.
Proof.
  pose proof (tree_walk_sound _ _ _ _ Hin) as HT.
  destruct (Tagged_valid _ _ _ HT) as (Hall & front & seg & ->).
  split; [exact Hall|]. split.
  - destruct (tree_walk_prefix _ _ _ _ Hin) as (s & E).
    rewrite E. reflexivity.
  - exists seg. split; [apply py_last_app|].
    apply Forall_app in Hall. destruct Hall as [_ Hseg].
    now inversion Hseg.
Qed.

(** The button of the counter, fifth item of the walk of the
    application. *)
Lemma tree_walk_paths_valid_witness :
  Forall valid_segment
    [NthOf.mk 0 1; NthOf.mk 0 1; NthOf.mk 0 1; NthOf.mk 1 2].
Proof.
  refine (proj1 (tree_walk_paths_valid Contador.application
                   [NthOf.mk 0 1; NthOf.mk 0 1; NthOf.mk 0 1; NthOf.mk 1 2]
                   Contador.button _)).
  simpl. do 4 right. left. reflexivity.
Defined.

Lemma walk_children_slice (cs : list Node) :
  forall (path : TreePath) (n i j : nat) (c : Node),
    nth_error cs j = Some c ->
    exists before after,
      walk_children tree_walk path n i cs
      = before
          ++ tree_walk c (path ++ [NthOf.mk (Z.of_nat (i + j)) (Z.of_nat n)])
          ++ after.
Proof.
  induction cs as [|c0 cs IH]; intros path n i j c Hj.
  - destruct j; discriminate.
  - destruct j as [|j]; simpl in Hj.
    + injection Hj as <-. exists [], (walk_children tree_walk path n (S i) cs).
      now rewrite Nat.add_0_r.
    + destruct (IH path n (S i) j c Hj) as (before & after & E).
      exists (tree_walk c0 (path ++ [NthOf.mk (Z.of_nat i) (Z.of_nat n)])
                ++ before), after.
      simpl. rewrite E, Nat.add_succ_r. now rewrite <- app_assoc.
Qed.

(** X3. The walk of a subtree is a contiguous run of the walk of the
    tree: when the walk from [root] yields a node [x] with tag [path],
    the items it yields from there are those of the walk from [x] under
    [path]; and the nodes of the subtree of [x], in pre-order, are a
    contiguous run of the nodes of the tree in pre-order. *)
Theorem tree_walk_subtree_contiguous (root : Node) (start path : TreePath)
  (x : Node) (Hin : In (path, x) (tree_walk root start)) :
  (exists before after,
      tree_walk root start = before ++ tree_walk x path ++ after)
  /\ exists before after,
      preorder root = before ++ preorder x ++ after.
Proof.
  assert (H : exists before after,
             tree_walk root start = before ++ tree_walk x path ++ after).
  { apply tree_walk_sound in Hin.
    induction Hin as [|path x i child _ IH Hi].
    - exists [], []. now rewrite app_nil_r.
    - destruct IH as (before & after & E).
      destruct (walk_children_slice (children x) path
                  (List.length (children x)) 0 i child Hi)
        as (b & a & E').
      rewrite (tree_walk_unfold x path), E' in E. simpl in E.
      exists (before ++ (path, x) :: b), (a ++ after).
      rewrite E. simpl. repeat (rewrite <- app_assoc; simpl). reflexivity. }
  split; [exact H|].
  destruct H as (before & after & E).
  exists (map snd before), (map snd after).
  rewrite <- (tree_walk_nodes root start), E, !map_app.
  now rewrite tree_walk_nodes.
Qed.

(** The box of the counter within the application. *)
Lemma tree_walk_subtree_contiguous_witness :
  exists before after,
    preorder Contador.application
    = before ++ preorder Contador.vbox ++ after.
Proof.
  refine (proj2 (tree_walk_subtree_contiguous Contador.application
                   ROOT_TREE_PATH
                   [NthOf.mk 0 1; NthOf.mk 0 1; NthOf.mk 0 1]
                   Contador.vbox _)).
  simpl. do 2 right. left. reflexivity.
Defined.

(* ================================================================== *)
(** ** Query engine *)

Lemma extend_each_result (produce : Node -> Result (list Node))
  (root_s : list Node) :
  forall result,
    extend_each produce root_s result
    = bindR (extend_each produce root_s [])
            (fun found => Ok (result ++ found)).
Proof.
  induction root_s as [|root root_s IH]; intro result; simpl.
  - now rewrite app_nil_r.
  - destruct (produce root) as [found|e]; simpl; [|reflexivity].
    rewrite (IH (result ++ found)), (IH found).
    destruct (extend_each produce root_s []) as [rest|e]; simpl;
      [|reflexivity].
    now rewrite app_assoc.
Qed.

Lemma extend_each_app (produce : Node -> Result (list Node))
  (roots1 roots2 : list Node) :
  extend_each produce (roots1 ++ roots2) []
  = bindR (extend_each produce roots1 [])
          (fun found1 =>
             bindR (extend_each produce roots2 [])
                   (fun found2 => Ok (found1 ++ found2))).
Proof.
  induction roots1 as [|root roots1 IH]; simpl.
  - now destruct (extend_each produce roots2 []).
  - destruct (produce root) as [found|e]; simpl; [|reflexivity].
    rewrite (extend_each_result produce (roots1 ++ roots2) found), IH.
    rewrite (extend_each_result produce roots1 found).
    destruct (extend_each produce roots1 []) as [f1|e]; simpl; [|reflexivity].
    destruct (extend_each produce roots2 []) as [f2|e]; simpl; [|reflexivity].
    now rewrite app_assoc.
Qed.

Lemma extend_each_ok (produce : Node -> Result (list Node))
  (expected : Node -> list Node) (root_s : list Node) :
  (forall root found,
      In root root_s -> produce root = Ok found -> found = expected root) ->
  forall found,
    extend_each produce root_s [] = Ok found ->
    found = flat_map expected root_s.
Proof.
  induction root_s as [|root root_s IH]; intros Hp found; simpl.
  - intro H. now injection H as <-.
  - destruct (produce root) as [first|e] eqn:E; simpl; [|discriminate].
    rewrite extend_each_result.
    destruct (extend_each produce root_s []) as [rest|e] eqn:E';
      simpl; [|discriminate].
    intro H. injection H as <-.
    rewrite (Hp root first (or_introl eq_refl) E).
    f_equal. apply IH; [|reflexivity].
    intros r f Hr. apply Hp. now right.
Qed.

Lemma extend_each_total (expected : Node -> list Node) (root_s : list Node) :
  extend_each (fun root => Ok (expected root)) root_s []
  = Ok (flat_map expected root_s).
Proof.
  induction root_s as [|root root_s IH]; simpl; [reflexivity|].
  now rewrite extend_each_result, IH.
Qed.

Lemma objects_in_extend_each (root_s : RootS) (kwargs : MatchArgs) :
  objects_in root_s kwargs
  = extend_each (fun root => _find_all_descendants root kwargs)
      (roots_of root_s) [].
Proof.
  unfold objects_in, _find_all_descendants, roots_of.
  now destruct kwargs, root_s.
Qed.

Lemma py_filter_ok {A} (f : A -> Result bool) (xs kept : list A) :
  py_filter f xs = Ok kept ->
  kept = filter (fun x => is_ok_true (f x)) xs.
Proof.
  revert kept. induction xs as [|x xs IH]; intros kept; simpl.
  - intro H. now injection H as <-.
  - destruct (f x) as [b|e]; [|discriminate].
    destruct (py_filter f xs) as [ys|e]; [|discriminate].
    intro H. injection H as <-. rewrite (IH ys eq_refl).
    now destruct b.
Qed.

Lemma py_filter_all_ok {A} (f : A -> Result bool) (xs : list A) :
  (forall x, In x xs -> exists b, f x = Ok b) ->
  py_filter f xs = Ok (filter (fun x => is_ok_true (f x)) xs).
Proof.
  induction xs as [|x xs IH]; intro H; simpl; [reflexivity|].
  destruct (H x (or_introl eq_refl)) as (b & ->).
  rewrite IH by (intros y Hy; apply H; now right).
  now destruct b.
Qed.

Lemma find_all_descendants_ok (root : Node) (kwargs : MatchArgs)
  (found : list Node) :
  _find_all_descendants root kwargs = Ok found -> found = accepted kwargs root.
Proof.
  unfold _find_all_descendants, accepted. destruct kwargs as [|nv kwargs].
  - simpl. intro H. injection H as <-. f_equal.
    symmetry. apply forallb_filter_id. now apply forallb_forall.
  - cbn [List.length Nat.eqb]. unfold select.
    destruct (py_filter _ _) as [kept|e] eqn:E; simpl; [|discriminate].
    intro H. injection H as <-. now rewrite (py_filter_ok _ _ _ E).
Qed.

Lemma accepted_In (kwargs : MatchArgs) (root x : Node) :
  In x (accepted kwargs root)
  <-> exists path,
      In (path, x) (tree_walk root ROOT_TREE_PATH)
      /\ matches x path kwargs = Ok true.
Proof.
  unfold accepted. rewrite in_map_iff. split.
  - intros ((path & y) & E & H). simpl in E. subst y.
    apply filter_In in H. destruct H as [Hin Hm]. simpl in Hm.
    exists path. split; [exact Hin|].
    now destruct (matches x path kwargs) as [[|]|].
  - intros (path & Hin & Hm). exists (path, x). split; [reflexivity|].
    apply filter_In. split; [exact Hin|]. simpl. now rewrite Hm.
Qed.

Lemma objects_in_ok (root_s : RootS) (kwargs : MatchArgs)
  (found : list Node) :
  objects_in root_s kwargs = Ok found ->
  found = flat_map (accepted kwargs) (roots_of root_s).
Proof.
  intro Hok. rewrite objects_in_extend_each in Hok.
  apply (extend_each_ok _ (accepted kwargs) _) in Hok; [exact Hok|].
  intros root f _. apply find_all_descendants_ok.
Qed.

(** X4. When [objects_in] returns, what it returns is, root after root
    in the order given, the walked nodes that the conditions accept, in
    the order of the walk: a node is returned exactly when it is walked
    from one of the roots with a tag under which every condition
    evaluates to true. *)
Theorem objects_in_sound_complete (root_s : RootS) (kwargs : MatchArgs)
  (found : list Node) (Hok : objects_in root_s kwargs = Ok found) :
  found = flat_map (accepted kwargs) (roots_of root_s)
  /\ forall x,
      In x found
      <-> exists root path,
          In root (roots_of root_s)
          /\ In (path, x) (tree_walk root ROOT_TREE_PATH)
          /\ matches x path kwargs = Ok true.
Proof.
  assert (E : found = flat_map (accepted kwargs) (roots_of root_s))
    by now apply objects_in_ok.
  split; [exact E|]. intro x. rewrite E, in_flat_map. split.
  - intros (root & Hr & Hx). apply accepted_In in Hx.
    destruct Hx as (path & Hin & Hm). now exists root, path.
  - intros (root & path & Hr & Hin & Hm). exists root. split; [exact Hr|].
    apply accepted_In. now exists path.
Qed.

(** Labels of the counter application. *)
Lemma objects_in_sound_complete_witness :
  [Contador.label1]
  = flat_map (accepted [("role"%string, MStr "label")])
      [Contador.application].
Proof.
  exact (proj1 (objects_in_sound_complete (OneRoot Contador.application)
                  [("role"%string, MStr "label")] [Contador.label1]
                  eq_refl)).
Defined.

(** X5. A query with no condition never raises: it returns every node of
    the subtree of each root, in pre-order, root after root in the order
    given, nothing being removed when subtrees overlap. *)
Theorem objects_in_no_condition (root_s : RootS) :
  objects_in root_s [] = Ok (flat_map preorder (roots_of root_s))
  /\ (forall root,
        objects_in (ManyRoots [root; root]) []
        = Ok (preorder root ++ preorder root)).
Proof.
  assert (H : forall rs, objects_in rs []
                         = Ok (flat_map preorder (roots_of rs))).
  { intro rs. unfold objects_in. simpl.
    rewrite (extend_each_total
               (fun root => map snd (tree_walk root ROOT_TREE_PATH))).
    f_equal. apply flat_map_ext. intro root. apply tree_walk_nodes. }
  split; [apply H|]. intro root. rewrite H. simpl. now rewrite app_nil_r.
Qed.

(** X6. Roots are searched one after the other and the results put end
    to end: a single root is the collection of that one root, and the
    query over [roots1 ++ roots2] is the query over [roots1] followed,
    if it did not raise, by the query over [roots2]. *)
Theorem objects_in_roots_append (kwargs : MatchArgs)
  (roots1 roots2 : list Node) :
  objects_in (ManyRoots (roots1 ++ roots2)) kwargs
  = bindR (objects_in (ManyRoots roots1) kwargs)
          (fun found1 =>
             bindR (objects_in (ManyRoots roots2) kwargs)
                   (fun found2 => Ok (found1 ++ found2)))
  /\ forall root,
      objects_in (OneRoot root) kwargs = objects_in (ManyRoots [root]) kwargs.
Proof.
  split; [|reflexivity].
  rewrite !objects_in_extend_each. apply extend_each_app.
Qed.





(** X8. The [path] condition is an unbound name in the matcher: a node
    can never be accepted by a condition set that has a [path]
    condition, so that a query with one, if it returns at all, returns
    nothing; and when [path] is the first condition and there is a root
    to search, the query raises [NameError]. *)
Theorem objects_in_path_condition (kwargs : MatchArgs) :
  (forall obj path,
      In "path"%string (map fst kwargs) -> matches obj path kwargs <> Ok true)
  /\ (forall root_s found,
         In "path"%string (map fst kwargs) ->
         objects_in root_s kwargs = Ok found -> found = [])
  /\ (forall value root roots,
         objects_in (ManyRoots (root :: roots)) (("path"%string, value) :: kwargs)
         = Raise NameError).
Proof.
  assert (Hno : forall obj path,
             In "path"%string (map fst kwargs) ->
             matches obj path kwargs <> Ok true).
  { intros obj path Hin Hm. apply in_map_iff in Hin.
    destruct Hin as ((name & value) & E & Hin). simpl in E. subst name.
    pose proof (py_all_true_In _ _ _ Hm Hin) as H. discriminate H. }
  repeat split.
  - exact Hno.
  - intros root_s found Hin Hok. apply objects_in_ok in Hok. subst found.
    induction (roots_of root_s) as [|root rs IH]; [reflexivity|].
    simpl. rewrite IH, app_nil_r.
    destruct (accepted kwargs root) as [|x xs] eqn:E; [reflexivity|].
    assert (Hx : In x (accepted kwargs root)) by (rewrite E; now left).
    apply accepted_In in Hx. destruct Hx as (path & _ & Hm).
    now destruct (Hno x path Hin).
  - intros value root roots. unfold objects_in, _find_all_descendants.
    cbn [List.length Nat.eqb extend_each]. unfold select.
    now rewrite tree_walk_unfold.
Qed.

(** No node of the counter has the role [spinner]; the [path] condition
    that follows is never reached. *)
Lemma objects_in_path_condition_witness :
  exists found,
    objects_in (OneRoot Contador.application)
      [("role"%string, MStr "spinner"); ("path"%string, MStr "0/1")]
    = Ok found
    /\ found = [].
Proof.
  exists []. split; [reflexivity|].
  refine (proj1 (proj2 (objects_in_path_condition
                          [("role"%string, MStr "spinner");
                           ("path"%string, MStr "0/1")]))
            (OneRoot Contador.application) [] _ eq_refl).
  simpl. right. left. reflexivity.
Defined.

(* ================================================================== *)
(** ** Matcher: the other kinds of condition *)



(** X10. On a node walked from a root, with [i] its position among [n]
    siblings, the condition [nth = k] never raises; for [-n <= k < n] it
    holds exactly when [i] is [k mod n], Python's reading of an index,
    and for [k] outside that range it is false (no node is selected, and
    no [IndexError] is raised). *)
Theorem nth_on_walked_node (root : Node) (path : TreePath) (x : Node) (k : Z)
  (Hin : In (path, x) (tree_walk root ROOT_TREE_PATH)) :
  exists seg,
    py_last path = Some seg
    /\ ((- NthOf.n seg <= k < NthOf.n seg)%Z ->
        _match x path "nth" (MInt k)
        = Ok (Z.eqb (NthOf.i seg) (k mod NthOf.n seg)))
    /\ ((k < - NthOf.n seg \/ NthOf.n seg <= k)%Z ->
        _match x path "nth" (MInt k) = Ok false).
Proof.
  destruct (tree_walk_last_segment _ _ _ Hin) as (seg & Hlast & Hi & Hn).
  exists seg. split; [exact Hlast|].
  unfold _match. simpl. rewrite Hlast. split; intro Hk.
  - f_equal. destruct (Z.geb_spec k 0).
    + rewrite Z.mod_small by lia. apply Z.eqb_sym.
    + replace (k mod NthOf.n seg)%Z with (NthOf.n seg + k)%Z.
      * apply Z.eqb_sym.
      * apply (Z.mod_unique _ _ (-1)); lia.
  - f_equal. destruct (Z.geb_spec k 0); apply Z.eqb_neq; lia.
Qed.

(** The button of the counter is the second of two siblings: [nth = -1]
    selects it, [nth = 2] selects nothing. *)
Lemma nth_on_walked_node_witness :
  _match Contador.button
    [NthOf.mk 0 1; NthOf.mk 0 1; NthOf.mk 0 1; NthOf.mk 1 2] "nth" (MInt (-1))
  = Ok true
  /\ _match Contador.button
       [NthOf.mk 0 1; NthOf.mk 0 1; NthOf.mk 0 1; NthOf.mk 1 2] "nth" (MInt 2)
     = Ok false.
Proof.
  assert (Hin : In ([NthOf.mk 0 1; NthOf.mk 0 1; NthOf.mk 0 1; NthOf.mk 1 2],
                    Contador.button)
                  (tree_walk Contador.application ROOT_TREE_PATH))
    by (simpl; do 4 right; left; reflexivity).
  split.
  - destruct (nth_on_walked_node Contador.application _ Contador.button (-1)
                Hin) as (seg & Hlast & Hin_range & _).
    simpl in Hlast. injection Hlast as <-.
    apply Hin_range. simpl. lia.
  - destruct (nth_on_walked_node Contador.application _ Contador.button 2
                Hin) as (seg & Hlast & _ & Hout).
    simpl in Hlast. injection Hlast as <-.
    apply Hout. simpl. lia.
Defined.

Lemma py_all_forallb {A} (f : A -> Result bool) (xs : list A) :
  (forall x, In x xs -> exists b, f x = Ok b) ->
  py_all f xs = Ok (forallb (fun x => is_ok_true (f x)) xs).
Proof.
  induction xs as [|x xs IH]; intro H; simpl; [reflexivity|].
  destruct (H x (or_introl eq_refl)) as ([|] & ->); simpl; [|reflexivity].
  apply IH. intros y Hy. apply H. now right.
Qed.

Lemma forallb_Permutation {A} (p : A -> bool) (xs ys : list A) :
  Permutation xs ys -> forallb p xs = forallb p ys.
Proof.
  induction 1 as [|x xs ys _ IH|x y xs|xs ys zs _ IH1 _ IH2]; simpl.
  - reflexivity.
  - now rewrite IH.
  - now destruct (p x), (p y).
  - now rewrite IH1.
Qed.

(** X11. The order in which the conditions were given does not matter
    as long as none of them raises on the node: two condition sets with
    the same conditions in different orders then give the same
    answer. *)
Theorem matches_order_irrelevant (obj : Node) (path : TreePath)
  (kwargs1 kwargs2 : MatchArgs)
  (Hperm : Permutation kwargs1 kwargs2)
  (Hok : forall name value,
      In (name, value) kwargs1 -> exists b, _match obj path name value = Ok b) :
  matches obj path kwargs1 = matches obj path kwargs2.
Proof.
  unfold matches.
  rewrite !py_all_forallb.
  - f_equal. now apply forallb_Permutation.
  - intros (name & value) Hin. apply Hok.
    now apply (Permutation_in _ (Permutation_sym Hperm)).
  - intros (name & value) Hin. now apply Hok.
Qed.

(** [role] then [name], or [name] then [role]. *)
Lemma matches_order_irrelevant_witness :
  matches Contador.button ROOT_TREE_PATH
    [("role"%string, MStr "push button"); ("name"%string, MStr "Contar")]
  = matches Contador.button ROOT_TREE_PATH
      [("name"%string, MStr "Contar"); ("role"%string, MStr "push button")].
Proof.
  apply matches_order_irrelevant.
  - apply perm_swap.
  - intros name value [H | [H | []]]; injection H as <- <-; now eexists.
Defined.

(** With a condition that raises the order does matter: the false
    condition first hides the raising one, the raising one first
    aborts. *)
Example matches_order_with_raise :
  matches Contador.button ROOT_TREE_PATH
    [("role"%string, MStr "label"); ("path"%string, MStr "0/1")]
  = Ok false
  /\ matches Contador.button ROOT_TREE_PATH
       [("path"%string, MStr "0/1"); ("role"%string, MStr "label")]
     = Raise NameError.
Proof. split; reflexivity. Qed.

(* ================================================================== *)
(** ** Action dispatcher: resolution and the three modes *)

Lemma index_of_some (name : string) (names : list string) :
  forall i k,
    index_of name names i = Some k
    <-> exists j,
        k = i + j
        /\ nth_error names j = Some name
        /\ forall j', j' < j -> nth_error names j' <> Some name.
Proof.
  induction names as [|a names IH]; intros i k; simpl.
  - split; [discriminate|]. intros (j & _ & H & _). destruct j; discriminate.
  - destruct (String.eqb_spec a name) as [-> | Hne].
    + split.
      * intro H. injection H as <-. exists 0. rewrite Nat.add_0_r.
        repeat split. intros j' Hj'. lia.
      * intros (j & -> & Hj & Hfirst). destruct j as [|j].
        { now rewrite Nat.add_0_r. }
        exfalso. apply (Hfirst 0); [lia | reflexivity].
    + rewrite IH. split.
      * intros (j & -> & Hj & Hfirst). exists (S j).
        repeat split; [lia | exact Hj |].
        intros [|j'] Hlt; simpl.
        { intro E. injection E as E. contradiction. }
        apply Hfirst. lia.
      * intros (j & -> & Hj & Hfirst). destruct j as [|j]; simpl in Hj.
        { injection Hj as Hj. contradiction. }
        exists j. repeat split; [lia | exact Hj |].
        intros j' Hlt. apply (Hfirst (S j')). lia.
Qed.

Lemma index_of_none (name : string) (names : list string) :
  forall i, index_of name names i = None <-> ~ In name names.
Proof.
  induction names as [|a names IH]; intro i; simpl.
  - tauto.
  - destruct (String.eqb_spec a name) as [-> | Hne].
    + split; [discriminate|]. intro H. exfalso. apply H. now left.
    + rewrite IH. tauto.
Qed.

(** X12. [_get_action_idx] returns the first index at which the node's
    list of action names holds the requested name, and [None] exactly
    when the name is not in the list. *)
Theorem get_action_idx_first (obj : Node) (name : string) :
  (forall idx,
      _get_action_idx obj name = Some idx
      <-> nth_error (actions obj) idx = Some name
          /\ forall j, j < idx -> nth_error (actions obj) j <> Some name)
  /\ (_get_action_idx obj name = None <-> ~ In name (actions obj)).
Proof.
  unfold _get_action_idx. split.
  - intro idx. rewrite index_of_some. split.
    + intros (j & -> & H). exact H.
    + intro H. now exists idx.
  - apply index_of_none.
Qed.

Lemma for_each_app (action_name : string) (objs1 objs2 : list Node)
  (tr : list Event) :
  Action.for_each action_name (objs1 ++ objs2) tr
  = bind (Action.for_each action_name objs1)
         (fun _ => Action.for_each action_name objs2) tr.
Proof.
  revert tr. induction objs1 as [|x objs1 IH]; intro tr; simpl.
  - reflexivity.
  - unfold bind in *.
    destruct (Action._do_action action_name x tr) as ([[]|e] & tr').
    + apply IH.
    + reflexivity.
Qed.

Lemma for_each_all_found (action_name : string) (objs : list Node) :
  (forall x, In x objs -> _get_action_idx x action_name <> None) ->
  forall tr,
  exists events,
    Action.for_each action_name objs tr = (Ok tt, tr ++ events)
    /\ Forall2 (fun x ev =>
                  exists idx,
                    _get_action_idx x action_name = Some idx
                    /\ ev = DoAction x idx) objs events.
Proof.
  induction objs as [|x objs IH]; intros Hall tr; simpl.
  - exists []. rewrite app_nil_r. split; [reflexivity | constructor].
  - destruct (_get_action_idx x action_name) as [idx|] eqn:E.
    + destruct (IH (fun y Hy => Hall y (or_intror Hy)) (tr ++ [DoAction x idx]))
        as (events & Hrun & Hev).
      exists (DoAction x idx :: events). split.
      * unfold bind. rewrite (do_action_found _ _ _ _ E), Hrun.
        now rewrite <- app_assoc.
      * constructor; [now exists idx | exact Hev].
    + now destruct (Hall x (or_introl eq_refl)).
Qed.

(** X13. [on_all] acts on the nodes in order and is not all-or-nothing:
    when every node has the action, it is performed once on each, in the
    order of the sequence (nothing at all for the empty sequence); when
    some node lacks it, the nodes before the first such node have been
    acted upon, that node and the ones after it have not, and the call
    raises [NotFoundError]. *)
Theorem on_all_in_order_until_failure (action_name : string)
  (objs : Iterable) (tr : list Event) :
  ((forall x, In x (items_of objs) -> _get_action_idx x action_name <> None) ->
   exists events,
     Action.on_all action_name objs tr = (Ok tt, tr ++ events)
     /\ Forall2 (fun x ev =>
                   exists idx,
                     _get_action_idx x action_name = Some idx
                     /\ ev = DoAction x idx) (items_of objs) events)
  /\ (forall done x rest,
         items_of objs = done ++ x :: rest ->
         (forall y, In y done -> _get_action_idx y action_name <> None) ->
         _get_action_idx x action_name = None ->
         exists events msg,
           Action.on_all action_name objs tr
           = (Raise (NotFoundError msg), tr ++ events)
           /\ Forall2 (fun y ev =>
                         exists idx,
                           _get_action_idx y action_name = Some idx
                           /\ ev = DoAction y idx) done events).
Proof.
  unfold Action.on_all. split.
  - intro Hall. now apply for_each_all_found.
  - intros done x rest -> Hdone Hx.
    destruct (for_each_all_found action_name done Hdone tr)
      as (events & Hrun & Hev).
    destruct (do_action_not_found action_name x (tr ++ events) Hx)
      as (msg & Hmsg).
    exists events, msg. split; [|exact Hev].
    rewrite for_each_app. unfold bind at 1. rewrite Hrun. simpl.
    unfold bind. now rewrite Hmsg.
Qed.

(** Clicking on the button and then on the label of the counter: the
    button is clicked, then the label, which has no such action, stops
    the call. *)
Lemma on_all_in_order_until_failure_witness :
  exists events msg,
    Action.on_all "click" (PyList [Contador.button; Contador.label1]) []
    = (Raise (NotFoundError msg), [] ++ events)
    /\ Forall2 (fun y ev =>
                  exists idx,
                    _get_action_idx y "click" = Some idx /\ ev = DoAction y idx)
         [Contador.button] events.
Proof.
  apply (proj2 (on_all_in_order_until_failure "click"
                  (PyList [Contador.button; Contador.label1]) [])
           [Contador.button] Contador.label1 []).
  - reflexivity.
  - intros y [<- | []]. discriminate.
  - reflexivity.
Defined.

(** X14. [on] is all-or-nothing: it returns normally exactly when the
    sequence holds one node and that node has the action, the action
    being then performed on it once; whenever it raises, no action has
    been performed; and on the empty sequence what it raises is
    [StopIteration]. *)
Theorem on_succeeds_iff_sole_node_with_action
  (py_str : Iterable -> string) (action_name : string) (objs : Iterable)
  (tr : list Event) :
  (forall tr',
      Action.on py_str action_name objs tr = (Ok tt, tr')
      <-> exists x idx,
          items_of objs = [x]
          /\ _get_action_idx x action_name = Some idx
          /\ tr' = tr ++ [DoAction x idx])
  /\ (forall e tr',
         Action.on py_str action_name objs tr = (Raise e, tr') -> tr' = tr)
  /\ (items_of objs = [] ->
      Action.on py_str action_name objs tr = (Raise StopIteration, tr)).
Proof.
  unfold Action.on, py_iter.
  destruct (items_of objs) as [|x [|y rest]]; simpl.
  - repeat split.
    + discriminate.
    + intros (x & idx & H & _). discriminate.
    + intros e tr' H. now injection H.
  - unfold Action._do_action.
    destruct (_get_action_idx x action_name) as [idx|] eqn:E.
    + repeat split.
      * intro H. injection H as <-. now exists x, idx.
      * intros (x' & idx' & H1 & H2 & ->). injection H1 as <-.
        rewrite E in H2. now injection H2 as <-.
      * discriminate.
      * discriminate.
    + repeat split.
      * discriminate.
      * intros (x' & idx' & H1 & H2 & _). injection H1 as <-. congruence.
      * intros e tr' H. now injection H.
      * discriminate.
  - repeat split.
    + discriminate.
    + intros (x' & idx' & H & _). discriminate.
    + intros e tr' H. now injection H.
    + discriminate.
Qed.

(* ================================================================== *)
(** ** Expectation engine: the quantifiers together *)

Lemma py_all_total (p : Node -> bool) (objs : list Node) :
  py_all (total p) objs = Ok (forallb p objs).
Proof.
  induction objs as [|x objs IH]; simpl; [reflexivity|].
  unfold total at 1. now destruct (p x).
Qed.

Lemma py_any_total (p : Node -> bool) (objs : list Node) :
  py_any (total p) objs = Ok (existsb p objs).
Proof.
  induction objs as [|x objs IH]; simpl; [reflexivity|].
  unfold total at 1. now destruct (p x).
Qed.

Lemma existsb_negb_forallb (p : Node -> bool) (objs : list Node) :
  existsb p objs = negb (forallb (fun x => negb (p x)) objs).
Proof.
  induction objs as [|x objs IH]; simpl; [reflexivity|].
  rewrite IH. now destruct (p x).
Qed.

(** X15. For a predicate that returns a boolean, on any candidates:
    [all] holds when no candidate fails the predicate and [any] when
    some candidate satisfies it, so that [any] is the negation of [all]
    for the negated predicate; whenever [one] holds, [any] holds; and
    whenever [all] holds of a non-empty sequence, [any] holds.  [expect]
    is [expect_all]. *)
Theorem check_quantifiers_related (p : Node -> bool) (objs : Iterable) :
  Expectation._check (expect_all objs) (total p)
  = Ok (forallb p (items_of objs))
  /\ Expectation._check (expect_any objs) (total p)
     = Ok (existsb p (items_of objs))
  /\ Expectation._check (expect_any objs) (total p)
     = bindR (Expectation._check (expect_all objs)
                (total (fun x => negb (p x))))
             (fun b => Ok (negb b))
  /\ (Expectation._check (expect_one objs) (total p) = Ok true ->
      Expectation._check (expect_any objs) (total p) = Ok true)
  /\ (items_of objs <> [] ->
      Expectation._check (expect_all objs) (total p) = Ok true ->
      Expectation._check (expect_any objs) (total p) = Ok true)
  /\ expect objs = expect_all objs.
Proof.
  assert (Hall : forall q, Expectation._check (expect_all objs) (total q)
                           = Ok (forallb q (items_of objs))).
  { intro q. unfold Expectation._check. simpl. apply py_all_total. }
  assert (Hany : Expectation._check (expect_any objs) (total p)
                 = Ok (existsb p (items_of objs))).
  { unfold Expectation._check. simpl. apply py_any_total. }
  repeat split.
  - apply Hall.
  - exact Hany.
  - rewrite Hany, Hall. simpl. f_equal. apply existsb_negb_forallb.
  - unfold Expectation._check at 1. simpl. rewrite py_filter_total. simpl.
    intro H. injection H as H. apply Nat.eqb_eq in H.
    rewrite Hany. f_equal. apply existsb_exists.
    destruct (filter p (items_of objs)) as [|x l] eqn:E; [discriminate|].
    assert (Hx : In x (filter p (items_of objs))) by (rewrite E; now left).
    apply filter_In in Hx. now exists x.
  - intros Hne. rewrite Hall, Hany. intro H. injection H as H. f_equal.
    destruct (items_of objs) as [|x l]; [contradiction|].
    simpl in *. apply andb_true_iff in H. now rewrite (proj1 H).
Qed.

(** The label alone is the one label, hence some label. *)
Lemma check_quantifiers_related_witness :
  Expectation._check (expect_any (PyList [Contador.label1]))
    (total (fun obj => String.eqb (get_role_name obj) "label"))
  = Ok true.
Proof.
  apply (proj1 (proj2 (proj2 (proj2
           (check_quantifiers_related
              (fun obj => String.eqb (get_role_name obj) "label")
              (PyList [Contador.label1])))))).
  reflexivity.
Defined.

Lemma py_filter_raises {A} (f : A -> Result bool) (before after : list A)
  (x : A) (e : PyExc) :
  (forall y, In y before -> exists b, f y = Ok b) ->
  f x = Raise e ->
  py_filter f (before ++ x :: after) = Raise e.
Proof.
  intros Hb Hx. induction before as [|y before IH]; simpl.
  - now rewrite Hx.
  - destruct (Hb y (or_introl eq_refl)) as (b & ->).
    now rewrite IH by (intros z Hz; apply Hb; now right).
Qed.

(** X16. The quantifiers do not look at the same candidates.  [all]
    stops at the first candidate that fails the predicate and [any] at
    the first that satisfies it: what the predicate would do on later
    candidates, raising included, plays no part.  [one] applies the
    predicate to every candidate: if the predicate raises on one of them
    the check raises, whatever the others give. *)
Theorem check_stops_early_except_one (predicate : Node -> Result bool)
  (objs : Iterable) (before after : list Node) (x : Node)
  (Hitems : items_of objs = before ++ x :: after) :
  ((forall y, In y before -> predicate y = Ok true) ->
   predicate x = Ok false ->
   Expectation._check (expect_all objs) predicate = Ok false)
  /\ ((forall y, In y before -> predicate y = Ok false) ->
      predicate x = Ok true ->
      Expectation._check (expect_any objs) predicate = Ok true)
  /\ (forall e,
         (forall y, In y before -> exists b, predicate y = Ok b) ->
         predicate x = Raise e ->
         Expectation._check (expect_one objs) predicate = Raise e).
Proof.
  unfold Expectation._check. simpl. rewrite Hitems. repeat split.
  - intros Hb Hx. clear Hitems.
    induction before as [|y before IH]; simpl.
    + now rewrite Hx.
    + rewrite (Hb y (or_introl eq_refl)). apply IH.
      intros z Hz. apply Hb. now right.
  - intros Hb Hx. clear Hitems.
    induction before as [|y before IH]; simpl.
    + now rewrite Hx.
    + rewrite (Hb y (or_introl eq_refl)). apply IH.
      intros z Hz. apply Hb. now right.
  - intros e Hb Hx. now rewrite (py_filter_raises _ _ _ _ e Hb Hx).
Qed.

(** The label shows the expected text; the text of the node after it
    cannot be read.  [any] answers, [one] raises. *)
Lemma check_stops_early_except_one_witness :
  Expectation._check
    (expect_any
       (PyList [Contador.label1; mkNode "filler" None (Raise TypeError) [] [] []]))
    (shows (AStr "Has pulsado 0 veces"))
  = Ok true
  /\ Expectation._check
       (expect_one
          (PyList [Contador.label1;
                   mkNode "filler" None (Raise TypeError) [] [] []]))
       (shows (AStr "Has pulsado 0 veces"))
     = Raise TypeError.
Proof.
  split.
  - apply (proj1 (proj2 (check_stops_early_except_one
             (shows (AStr "Has pulsado 0 veces"))
             (PyList [Contador.label1;
                      mkNode "filler" None (Raise TypeError) [] [] []])
             [] [mkNode "filler" None (Raise TypeError) [] [] []]
             Contador.label1 eq_refl))).
    + intros y [].
    + reflexivity.
  - apply (proj2 (proj2 (check_stops_early_except_one
             (shows (AStr "Has pulsado 0 veces"))
             (PyList [Contador.label1;
                      mkNode "filler" None (Raise TypeError) [] [] []])
             [Contador.label1] []
             (mkNode "filler" None (Raise TypeError) [] [] []) eq_refl))).
    + intros y [<- | []]. now eexists.
    + reflexivity.
Defined.

(* ================================================================== *)
(** ** Expectation engine: [to_show] *)

(** X17. [to_show] returns normally exactly when the quantified check of
    "the text of the candidate equals the expected text" returns true;
    when the check returns false it raises, and when the check raises it
    raises the same exception. *)
Theorem to_show_passes_iff_check (py_str_val : PyVal -> string)
  (py_str_text : AnyStr -> string) (self : Expectation.t) (text : AnyStr) :
  (to_show py_str_val py_str_text self text = Ok tt
   <-> Expectation._check self (shows text) = Ok true)
  /\ (Expectation._check self (shows text) = Ok false ->
      exists e, to_show py_str_val py_str_text self text = Raise e)
  /\ (forall e,
         Expectation._check self (shows text) = Raise e ->
         to_show py_str_val py_str_text self text = Raise e).
Proof.
  unfold to_show.
  destruct (Expectation._check self (shows text)) as [[|]|e]; repeat split;
    try discriminate; try tauto.
  - destruct (py_map _ _); discriminate.
  - intros _. destruct (py_map _ _); simpl; now eexists.
  - intros e' H. now injection H as <-.
Qed.

(** The label of the counter shows what it is expected to show. *)
Lemma to_show_passes_iff_check_witness :
  to_show (fun _ => ""%string) (fun _ => ""%string)
    (expect_any (PyList [Contador.label1; Contador.button]))
    (AStr "Has pulsado 0 veces")
  = Ok tt.
Proof.
  apply (proj1 (to_show_passes_iff_check (fun _ => ""%string)
                  (fun _ => ""%string)
                  (expect_any (PyList [Contador.label1; Contador.button]))
                  (AStr "Has pulsado 0 veces"))).
  reflexivity.
Defined.

Lemma py_map_shows_line (py_str_val : PyVal -> string) (objs : list Node) :
  (forall x, In x objs -> exists v, get_text x = Ok v) ->
  exists texts,
    py_map (shows_line py_str_val) objs = Ok texts
    /\ Forall2 (fun x line =>
                  exists v,
                    get_text x = Ok v
                    /\ line = ("  " ++ _pprint x ++ " shows " ++ dquote
                                 ++ py_str_val v ++ dquote)%string)
         objs texts.
Proof.
  induction objs as [|x objs IH]; intro H; simpl.
  - exists []. split; [reflexivity | constructor].
  - destruct (H x (or_introl eq_refl)) as (v & Hv).
    destruct (IH (fun y Hy => H y (or_intror Hy))) as (texts & E & HF).
    eexists. split.
    + unfold shows_line at 1. unfold obj_get_attr. simpl.
      rewrite Hv. simpl. rewrite E. reflexivity.
    + constructor; [now exists v | exact HF].
Qed.

(** X18. What the failure of [to_show] reports depends on how the
    candidates were given.  For a list whose texts can all be read, the
    [AssertionError] carries one line per candidate, in order, with the
    display form of the node and the text it shows.  For an iterator
    under [any] or [one] the check has used the iterator up, and the
    message carries no line at all. *)
Theorem to_show_failure_lines (py_str_val : PyVal -> string)
  (py_str_text : AnyStr -> string) (which_one : string) (text : AnyStr) :
  (forall items,
      Expectation._check (Expectation.mk (PyList items) which_one) (shows text)
      = Ok false ->
      (forall x, In x items -> exists v, get_text x = Ok v) ->
      exists texts,
        to_show py_str_val py_str_text
          (Expectation.mk (PyList items) which_one) text
        = Raise (AssertionError
                   ("expect " ++ which_one ++ " to show " ++ dquote
                      ++ py_str_text text ++ dquote ++ ", but:" ++ newline
                      ++ String.concat newline texts)%string)
        /\ Forall2 (fun x line =>
                      exists v,
                        get_text x = Ok v
                        /\ line = ("  " ++ _pprint x ++ " shows " ++ dquote
                                     ++ py_str_val v ++ dquote)%string)
             items texts)
  /\ (forall pending,
         which_one = "any"%string \/ which_one = "one"%string ->
         Expectation._check (Expectation.mk (PyIterator pending) which_one)
           (shows text)
         = Ok false ->
         to_show py_str_val py_str_text
           (Expectation.mk (PyIterator pending) which_one) text
         = Raise (AssertionError
                    ("expect " ++ which_one ++ " to show " ++ dquote
                       ++ py_str_text text ++ dquote ++ ", but:" ++ newline
                       ++ "")%string)).
Proof.
  split.
  - intros items Hcheck Htexts. unfold to_show. rewrite Hcheck.
    destruct (py_map_shows_line py_str_val items Htexts) as (texts & E & HF).
    exists texts. split; [|exact HF].
    unfold objects_after_check. simpl. rewrite E. reflexivity.
  - intros pending Hq Hcheck. unfold to_show. rewrite Hcheck.
    unfold objects_after_check. simpl.
    destruct Hq as [-> | ->]; reflexivity.
Qed.

(** Expecting every one of the label and the button to show the text of
    the label: both are listed.  Expecting, of the same two given as an
    iterator, some to show [Adios]: none is listed. *)
Lemma to_show_failure_lines_witness :
  (exists texts,
      to_show (fun _ => "?"%string) (fun _ => "?"%string)
        (expect_all (PyList [Contador.label1; Contador.button]))
        (AStr "Has pulsado 0 veces")
      = Raise (AssertionError
                 ("expect all to show " ++ dquote ++ "?" ++ dquote
                    ++ ", but:" ++ newline
                    ++ String.concat newline texts)%string)
      /\ List.length texts = 2)
  /\ to_show (fun _ => "?"%string) (fun _ => "?"%string)
       (expect_any (PyIterator [Contador.label1; Contador.button]))
       (AStr "Adios")
     = Raise (AssertionError
                ("expect any to show " ++ dquote ++ "?" ++ dquote
                   ++ ", but:" ++ newline ++ "")%string).
Proof.
  split.
  - destruct (proj1 (to_show_failure_lines (fun _ => "?"%string)
                       (fun _ => "?"%string) "all"
                       (AStr "Has pulsado 0 veces"))
                [Contador.label1; Contador.button] eq_refl)
      as (texts & E & HF).
    + intros x [<- | [<- | []]]; now eexists.
    + exists texts. split; [exact E|].
      now rewrite <- (Forall2_length HF).
  - apply (proj2 (to_show_failure_lines (fun _ => "?"%string)
                    (fun _ => "?"%string) "any" (AStr "Adios"))
             [Contador.label1; Contador.button]).
    + now left.
    + reflexivity.
Defined.

(* ================================================================== *)
(** ** Session scope after a successful entry *)

(** X19. When the application was found, the [with] statement runs the
    body on the session itself and, however the body ends, ends the same
    way (an exception of the body is passed on, not swallowed); the
    outside calls are those of the body followed by one [kill] of the
    process, or by nothing when the process handle is falsy. *)
Theorem py_with_runs_body_then_kills {A} (sut : SUT.t) (root : Node)
  (body : SUT.t -> M A) (tr : list Event)
  (Happ : SUT.app sut = Some root) :
  py_with sut body tr
  = (fst (body sut tr),
     snd (body sut tr)
       ++ match SUT.process sut with
          | Some p => [Kill p]
          | None => []
          end).
Proof.
  unfold py_with, SUT.__enter__, SUT.__exit__. rewrite Happ. simpl.
  destruct (body sut tr) as (outcome & tr2). simpl.
  destruct (SUT.process sut); simpl; [reflexivity|].
  now rewrite app_nil_r.
Qed.

(** A test body that clicks twice on the one button and then on the
    label, which cannot be clicked: the failure is passed on and the
    process is killed after the two clicks. *)
Lemma py_with_runs_body_then_kills_witness :
  exists msg,
    py_with (SUT.mk (Some 7) (Some Contador.application) "./contador.py")
      (fun sut =>
         bind (Action.on (fun _ => ""%string) "click"
                 (PyList [Contador.button]))
              (fun _ =>
                 bind (Action.on (fun _ => ""%string) "click"
                         (PyList [Contador.button]))
                      (fun _ =>
                         Action.on (fun _ => ""%string) "click"
                           (PyList [Contador.label1]))))
      []
    = (Raise (NotFoundError msg),
       [DoAction Contador.button 0; DoAction Contador.button 0; Kill 7]).
Proof.
  eexists.
  rewrite (py_with_runs_body_then_kills
             (SUT.mk (Some 7) (Some Contador.application) "./contador.py")
             Contador.application _ [] eq_refl).
  reflexivity.
Defined.

(* ================================================================== *)
(** ** Query engine: narrowing and the [when] condition *)

Lemma py_all_all_true {A} (f : A -> Result bool) (xs : list A) :
  (forall x, In x xs -> f x = Ok true) -> py_all f xs = Ok true.
Proof.
  induction xs as [|x xs IH]; intro H; simpl; [reflexivity|].
  rewrite (H x (or_introl eq_refl)). apply IH.
  intros y Hy. apply H. now right.
Qed.

Lemma objects_in_ok_In (root_s : RootS) (kwargs : MatchArgs)
  (found : list Node) (x : Node) :
  objects_in root_s kwargs = Ok found ->
  (In x found
   <-> exists root path,
       In root (roots_of root_s)
       /\ In (path, x) (tree_walk root ROOT_TREE_PATH)
       /\ matches x path kwargs = Ok true).
Proof.
  intro Hok. rewrite (objects_in_ok _ _ _ Hok), in_flat_map. split.
  - intros (root & Hr & Hx). apply accepted_In in Hx.
    destruct Hx as (path & Hin & Hm). now exists root, path.
  - intros (root & path & Hr & Hin & Hm). exists root. split; [exact Hr|].
    apply accepted_In. now exists path.
Qed.

(** X20. More conditions can only narrow a query: when every condition
    of [fewer] is also a condition of [more] and both queries return,
    each node that the query with [more] returns is returned by the
    query with [fewer]. *)
Theorem objects_in_narrows (root_s : RootS) (fewer more : MatchArgs)
  (found_fewer found_more : list Node)
  (Hsub : incl fewer more)
  (Hfewer : objects_in root_s fewer = Ok found_fewer)
  (Hmore : objects_in root_s more = Ok found_more) :
  incl found_more found_fewer.
Proof.
  intros x Hx.
  apply (objects_in_ok_In _ _ _ x Hmore) in Hx.
  destruct Hx as (root & path & Hr & Hin & Hm).
  apply (objects_in_ok_In _ _ _ x Hfewer). exists root, path.
  repeat split; try assumption.
  unfold matches. apply py_all_all_true. intros nv Hnv.
  apply (py_all_true_In _ _ _ Hm). now apply Hsub.
Qed.

(** Push buttons, and push buttons named [Contar]. *)
Lemma objects_in_narrows_witness :
  incl [Contador.button] [Contador.button].
Proof.
  apply (objects_in_narrows (OneRoot Contador.application)
           [("role"%string, MStr "push button")]
           [("role"%string, MStr "push button");
            ("name"%string, MStr "Contar")]
           [Contador.button] [Contador.button]).
  - intros nv [<- | []]. now left.
  - reflexivity.
  - reflexivity.
Defined.

(** X21. A [when] condition alone turns the query into a filter of the
    walk: for a predicate on node and tag that returns a boolean, the
    query returns, in walk order, the nodes on which the predicate
    holds. *)
Theorem objects_in_when_filters (root : Node)
  (call1 : PyVal -> Result bool) (w : Node -> TreePath -> bool) :
  objects_in (OneRoot root)
    [("when"%string, MCallable call1 (fun obj path => Ok (w obj path)))]
  = Ok (map snd
          (filter (fun po => w (snd po) (fst po))
             (tree_walk root ROOT_TREE_PATH))).
Proof.
  unfold objects_in, _find_all_descendants.
  cbn [List.length Nat.eqb extend_each app]. unfold select.
  rewrite py_filter_all_ok.
  - simpl. do 2 f_equal. apply filter_ext. intros (path & x).
    unfold matches, _match. simpl. now destruct (w x path).
  - intros (path & x) _. unfold matches, _match. simpl.
    destruct (w x path); now eexists.
Qed.

(* ================================================================== *)
(** ** Action dispatcher: the modes on a single node *)

(** X22. On an iterator over exactly one node the three modes do the
    same thing, namely what [_do_action] does on that node; on a list of
    one node [on] and [on_all] still do, [on_first] does not. *)
Theorem modes_agree_on_single_node (py_str : Iterable -> string)
  (action_name : string) (x : Node) (tr : list Event) :
  Action.on py_str action_name (PyIterator [x]) tr
  = Action._do_action action_name x tr
  /\ Action.on_first action_name (PyIterator [x]) tr
     = Action._do_action action_name x tr
  /\ Action.on_all action_name (PyIterator [x]) tr
     = Action._do_action action_name x tr
  /\ Action.on py_str action_name (PyList [x]) tr
     = Action.on_all action_name (PyList [x]) tr
  /\ Action.on_first action_name (PyList [x]) tr = (Raise TypeError, tr).
Proof.
  assert (H : Action.on_all action_name (PyIterator [x]) tr
              = Action._do_action action_name x tr).
  { unfold Action.on_all. simpl. unfold bind.
    now destruct (Action._do_action action_name x tr) as ([[]|e] & tr'). }
  repeat split; try reflexivity; try exact H.
  symmetry. exact H.
Qed.
